(** * Multilingual GemmaBot chat (Chatbot.py): a shallow embedding

    The Streamlit script [Chatbot.py] is modelled as a function from the
    state that survives between runs (the dictionary of chat histories
    that the cached chain keeps and the per-browser [st.session_state])
    and the inputs of
    one run (widget values, the UUID drawn by [uuid.uuid4], the reply of
    the hosted model) to the new state, what is shown, and the request
    sent to the model, if any.

    Conventions.
    - Text is [string]: a sequence of code points U+0000..U+00FF.  On this
      range [lower] and [strip] are Python's [str.lower] and [str.strip].
    - The script is run again from its first line on every interaction,
      so every run makes its own dictionary [store = {}] at
      Chatbot.py:29.  The chain is built once and cached
      ([st.cache_resource], Chatbot.py:38): it keeps the
      [get_session_history], and with it the dictionary, of the run that
      built it.  That dictionary is the one that survives from run to run
      ([store] of a [World]); what the script itself reads and clears is
      the dictionary of the current run.
    - The external library calls configured in the script
      ([trim_messages], [RunnableWithMessageHistory], [ChatPromptTemplate],
      [ChatMessageHistory]) are modelled after their library behaviour for
      exactly the keyword arguments that the script passes.
    - The hosted model is an environment: its reply is an input of the run
      and the request it is sent is an output. *)

From Stdlib Require Import NArith Ascii String.
From stdpp Require Import gmap strings list fin_maps.

Local Open Scope string_scope.
Local Open Scope nat_scope.

(** ** Text: [str.lower], [str.strip], [str[:n]] *)

Module Str.

Definition code (c : ascii) : N := N_of_ascii c.

(** [str.lower] on one code point below U+0100: A-Z and the Latin-1
    capitals U+00C0..U+00DE (without the multiplication sign U+00D7). *)
Definition lower_char (c : ascii) : ascii :=
  let n := code c in
  if ((65 <=? n) && (n <=? 90)
      || (192 <=? n) && (n <=? 222) && negb (n =? 215))%N
  then ascii_of_N (n + 32) else c.

Fixpoint lower (s : string) : string :=
  match s with
  | EmptyString => EmptyString
  | String c s' => String (lower_char c) (lower s')
  end.

(** [str.isspace] on one code point below U+0100. *)
Definition isspace (c : ascii) : bool :=
  let n := code c in
  ((9 <=? n) && (n <=? 13) || (28 <=? n) && (n <=? 32)
   || (n =? 133) || (n =? 160))%N.

Fixpoint lstrip (s : string) : string :=
  match s with
  | EmptyString => EmptyString
  | String c s' => if isspace c then lstrip s' else s
  end.

Fixpoint rstrip (s : string) : string :=
  match s with
  | EmptyString => EmptyString
  | String c s' =>
      match rstrip s' with
      | EmptyString => if isspace c then EmptyString else String c EmptyString
      | r => String c r
      end
  end.

Definition strip (s : string) : string := rstrip (lstrip s).

(** [s[:n]] *)
Definition take (n : nat) (s : string) : string := substring 0 n s.

(** Python truthiness of a [str]. *)
Definition truthy (s : string) : bool :=
  match s with EmptyString => false | _ => true end.

Fixpoint concat (l : list string) : string :=
  match l with
  | [] => EmptyString
  | s :: l' => s ++ concat l'
  end.

End Str.

(** ** [uuid.uuid4().hex] *)

Module Uuid.

Definition hex_digit (d : N) : ascii :=
  if (d <? 10)%N then ascii_of_N (48 + d) else ascii_of_N (87 + d).

(** The [n] lowest hexadecimal digits of [v], most significant first. *)
Fixpoint hex_of (n : nat) (v : N) : string :=
  match n with
  | O => EmptyString
  | S k => hex_of k (v / 16) ++ String (hex_digit (v mod 16)%N) EmptyString
  end.

(** [UUID.hex]: 32 lower-case hexadecimal digits of the 128-bit value. *)
Definition hex (u : N) : string := hex_of 32 (u mod 2 ^ 128)%N.

End Uuid.

(** ** Messages and the session store (Chatbot.py:28-35) *)

(** [langchain_core.messages]: the three message classes the script
    imports.  The role of a message is its constructor. *)
Inductive BaseMessage : Type :=
  | SystemMessage (content : string)
  | HumanMessage (content : string)
  | AIMessage (content : string).

Inductive Role : Type := system | user | assistant.

Definition role_of (m : BaseMessage) : Role :=
  match m with
  | SystemMessage _ => system
  | HumanMessage _ => user
  | AIMessage _ => assistant
  end.

Definition message_content (m : BaseMessage) : string :=
  match m with
  | SystemMessage c | HumanMessage c | AIMessage c => c
  end.

Definition is_human (m : BaseMessage) : bool :=
  match m with HumanMessage _ => true | _ => false end.

Definition is_system (m : BaseMessage) : bool :=
  match m with SystemMessage _ => true | _ => false end.

#[global] Instance BaseMessage_eq_dec : EqDecision BaseMessage.
Proof. solve_decision. Defined.

#[global] Instance Role_eq_dec : EqDecision Role.
Proof. solve_decision. Defined.

(** The global [store = {}]: session id to the message list of its
    [ChatMessageHistory]. *)
Abbreviation Store := (gmap string (list BaseMessage)).

(** [get_session_history]: creates the entry when the id is new.  The
    history object it returns is addressed by its id in the model. *)
Definition get_session_history (session_id : string) (store : Store) : Store :=
  match store !! session_id with
  | Some _ => store
  | None => <[session_id := []]> store
  end.

(** [history.messages] *)
Definition history_messages (session_id : string) (store : Store)
  : list BaseMessage :=
  default [] (store !! session_id).

(** [ChatMessageHistory.clear]: [self.messages = []]. *)
Definition history_clear (session_id : string) (store : Store) : Store :=
  <[session_id := []]> store.

(** [ChatMessageHistory.add_message] and [add_messages]. *)
Definition history_add_messages (session_id : string) (ms : list BaseMessage)
    (store : Store) : Store :=
  <[session_id := (history_messages session_id store ++ ms)%list]> store.

Definition history_add_message (session_id : string) (m : BaseMessage)
    (store : Store) : Store :=
  history_add_messages session_id [m] store.

(** The three operations of the store as the script composes them. *)
Definition store_get (session_id : string) (store : Store)
  : Store * list BaseMessage :=
  let store := get_session_history session_id store in
  (store, history_messages session_id store).

Definition store_clear (session_id : string) (store : Store) : Store :=
  history_clear session_id (get_session_history session_id store).

Definition store_append (session_id : string) (m : BaseMessage) (store : Store)
  : Store :=
  history_add_message session_id m (get_session_history session_id store).

Definition store_appends (ops : list (string * BaseMessage)) (store : Store)
  : Store :=
  foldl (fun st op => store_append op.1 op.2 st) store ops.

(** [n] successive reads of one id: the final store and what each read
    returned. *)
Fixpoint store_gets (n : nat) (session_id : string) (store : Store)
  : Store * list (list BaseMessage) :=
  match n with
  | O => (store, [])
  | S k =>
      let '(store1, ms) := store_get session_id store in
      let '(store2, rest) := store_gets k session_id store1 in
      (store2, ms :: rest)
  end.

(** ** The hosted model (Chatbot.py:16-26) *)

(** What the script uses of the [ChatGroq] client: it is the
    [token_counter] of the trimmer (a count for a list of messages) and
    the last stage of the chain.  Its replies are inputs of a run, see
    [Reply]. *)
Record ChatGroq : Type := {
  get_num_tokens_from_messages : list BaseMessage -> nat
}.

(** What is shown on the page: the calls [st.error] and [st.markdown],
    each with the container it is made in. *)
Inductive Container : Type :=
  | main
  | sidebar
  | chat_message (name : string).

Inductive Element : Type :=
  | st_error (container : Container) (body : string)
  | st_markdown (container : Container) (body : string).

(** Lines 16-26 and 79.  [groq_api_key] is [os.getenv("GROQ_API_KEY")];
    [ctor] is the [ChatGroq(...)] constructor call, which returns a client
    or raises (the text of the exception on the left). *)
Definition load_model (groq_api_key : option string)
    (ctor : string -> string + ChatGroq) : list Element * option ChatGroq :=
  match groq_api_key with
  | None =>
      ([st_error main "GROQ_API_KEY not found. Please set it in your .env file or Streamlit secrets."], None)
  | Some key =>
      if negb (Str.truthy key) then
        ([st_error main "GROQ_API_KEY not found. Please set it in your .env file or Streamlit secrets."], None)
      else
        match ctor key with
        | inr model => ([], Some model)
        | inl e => ([st_error main ("Error initializing GroQ model: " ++ e)], None)
        end
  end.

(** ** The chain (Chatbot.py:38-79) *)

Inductive Language : Type :=
  English | Hindi | Spanish | French | Japanese | German.

#[global] Instance Language_eq_dec : EqDecision Language.
Proof. solve_decision. Defined.

Definition language_name (l : Language) : string :=
  match l with
  | English => "English" | Hindi => "Hindi" | Spanish => "Spanish"
  | French => "French" | Japanese => "Japanese" | German => "German"
  end.

Definition ALL_LANGUAGES : list string :=
  language_name <$> [English; Hindi; Spanish; French; Japanese; German].

(** The system entry of [ChatPromptTemplate.from_messages] with
    [{language}] filled in. *)
Definition system_prompt (language : Language) : BaseMessage :=
  SystemMessage
    ("You are a helpful assistant. Answer all questions to the best of your ability in "
     ++ language_name language
     ++ ". Your name is GemmaBot. The user's input might be in English, but you MUST respond in the selected "
     ++ language_name language ++ ".").

(** [prompt]: the system entry, then the [MessagesPlaceholder]. *)
Definition prompt (language : Language) (messages : list BaseMessage)
  : list BaseMessage :=
  system_prompt language :: messages.

Section Trimmer.

(** [token_counter=llm] *)
Variable token_counter : list BaseMessage -> nat.

(** The longest prefix [messages[:idx]], [1 <= idx <= n], that the
    counter puts within [max_tokens]; 0 when there is none.  The library
    looks for this index from the longest prefix downwards (by bisection
    in its later releases, which finds the same index when the count does
    not decrease as messages are added). *)
Fixpoint fitting_prefix (max_tokens : nat) (messages : list BaseMessage)
    (n : nat) : nat :=
  match n with
  | O => O
  | S k =>
      if (token_counter (take n messages) <=? max_tokens)%nat then n
      else fitting_prefix max_tokens messages k
  end.

(** [end_on="human"] applied to a prefix length: shorten it until its
    last message is a [HumanMessage]. *)
Fixpoint end_on_human (messages : list BaseMessage) (idx : nat) : nat :=
  match idx with
  | O => O
  | S k =>
      match messages !! k with
      | Some (HumanMessage _) => idx
      | _ => end_on_human messages k
      end
  end.

(** [_first_max_tokens] with [partial_strategy=None] (whole messages
    only) and [end_on="human"]. *)
Definition first_max_tokens (max_tokens : nat) (messages : list BaseMessage)
  : list BaseMessage :=
  let idx := fitting_prefix max_tokens messages (length messages) in
  take (end_on_human messages idx) messages.

(** [trim_messages] with [strategy="last"], [include_system=True],
    [allow_partial=False], [start_on="human"]: a [SystemMessage] at
    index 0 is kept and paid for out of the budget; the rest is reversed,
    cut by [first_max_tokens] (so [start_on] becomes [end_on]) and
    reversed back. *)
Definition trim_messages (max_tokens : nat) (messages : list BaseMessage)
  : list BaseMessage :=
  match messages with
  | [] => []
  | SystemMessage c :: rest =>
      let remaining_tokens := max_tokens - token_counter [SystemMessage c] in
      SystemMessage c :: reverse (first_max_tokens remaining_tokens (reverse rest))
  | _ => reverse (first_max_tokens max_tokens (reverse messages))
  end.

(** [trimmer = trim_messages(max_tokens=200, ...)] *)
Definition trimmer (messages : list BaseMessage) : list BaseMessage :=
  trim_messages 200 messages.

End Trimmer.

(** What the model sends back for one request: the content of the chunks
    of a stream that ran to its end (their concatenation is the content of
    the output message), or the chunks received before an exception (with
    its text). *)
Inductive Reply : Type :=
  | Completed (chunks : list string)
  | Raised (chunks : list string) (exc : string).

Definition reply_chunks (r : Reply) : list string :=
  match r with Completed cs | Raised cs _ => cs end.

(** [RunnableWithMessageHistory(chain, get_session_history,
    input_messages_key="messages")], no [history_messages_key]: on entry
    the history stored in the chain's dictionary is put in front of the
    value under "messages". *)
Definition enter_history (hist input : list BaseMessage) : list BaseMessage :=
  (hist ++ input)%list.

(** On a successful end the run's input messages, without their first
    [len(historic_messages)] ones, and the output message are added to the
    history. *)
Definition exit_history (session_id : string) (run_inputs : list BaseMessage)
    (output : BaseMessage) (store : Store) : Store :=
  let historic_messages := history_messages session_id store in
  history_add_messages session_id
    (drop (length historic_messages) run_inputs ++ [output])%list store.

(** What one call [chatbot_chain.stream({"messages": ..., "language": ...},
    config)] does, consumed to its end or to its exception.  [store] is
    the dictionary of the chain. *)
Record Streamed : Type := {
  streamed_store : Store;
  streamed_request : list BaseMessage;
  streamed_reply : Reply
}.

Definition chatbot_chain_stream (llm : ChatGroq) (messages : list BaseMessage)
    (language : Language) (session_id : string) (reply : Reply)
    (store : Store) : Streamed :=
  let store := get_session_history session_id store in
  let run_inputs := enter_history (history_messages session_id store) messages in
  let request :=
    prompt language (trimmer (get_num_tokens_from_messages llm) run_inputs) in
  {| streamed_store :=
       match reply with
       | Completed chunks =>
           exit_history session_id run_inputs (AIMessage (Str.concat chunks)) store
       | Raised _ _ => store
       end;
     streamed_request := request;
     streamed_reply := reply |}.

(** ** Session state and [init_chat_session] (Chatbot.py:82-98) *)

(** An entry of [st.session_state["messages"]]: a dict with the keys
    "role" and "content". *)
Record DisplayMessage : Type := {
  role : string;
  content : string
}.

(** [st.session_state]: [session_id] is
    [config["configurable"]["session_id"]]. *)
Record SessionState : Type := {
  session_id : string;
  language : Language;
  messages : list DisplayMessage
}.

#[global] Instance DisplayMessage_eq_dec : EqDecision DisplayMessage.
Proof. solve_decision. Defined.

#[global] Instance SessionState_eq_dec : EqDecision SessionState.
Proof. solve_decision. Defined.

(** [f"chat_{uuid.uuid4().hex[:8]}"] for the drawn UUID [u]. *)
Definition new_session_id (u : N) : string :=
  "chat_" ++ Str.take 8 (Uuid.hex u).

Definition welcome (current_lang : Language) : DisplayMessage :=
  {| role := "assistant";
     content := "Hello! I'm GemmaBot. I will respond in **"
                ++ language_name current_lang ++ "**. Ask me anything!" |}.

(** [init_chat_session]; [u] is the value of [uuid.uuid4()] and
    [current_lang] is [st.session_state.get("language", "English")]. *)
Definition init_chat_session (u : N) (current_lang : Language) : SessionState :=
  {| session_id := new_session_id u;
     language := current_lang;
     messages := [welcome current_lang] |}.

(** What survives from one run of the script to the next:
    [st.session_state] and the dictionary that the cached chain keeps.
    The chain is built around the [get_session_history] of the run that
    built it (Chatbot.py:72-76), so for the life of the process it reads
    and writes the [store] of that run: that is the [store] of a [World].
    Every run makes its own [store = {}] at Chatbot.py:29; the calls of
    [get_session_history] in the script itself (lines 119, 127, 153 and
    165) act on that dictionary, which is dropped when the run ends.
    (The run that builds the chain is the first page load of the process,
    in which the script makes none of these calls.) *)
Record World : Type := {
  store : Store;
  session : SessionState
}.

(** Lines 96-98 on the first run of a browser session, in a fresh
    process: ["config" not in st.session_state]. *)
Definition first_load (u : N) : World :=
  {| store := ∅; session := init_chat_session u English |}.

(** ** One run of the script (Chatbot.py:100-196) *)

(** The inputs of one run: the widget values, the UUID that
    [init_chat_session] draws if it is called, and the reply of the model
    if the chain is streamed. *)
Record Event : Type := {
  language_select : Language;
  new_chat_button : bool;
  chat_input : option string;
  uuid4 : N;
  llm_reply : Reply
}.

(** How a run ends: at the end of the script, by [st.stop()] or by
    [st.rerun()]. *)
Inductive Control : Type := Finished | Stopped | Rerun.

Record Outcome : Type := {
  world : World;
  shown : list Element;
  request : option (list BaseMessage);
  control : Control
}.

Definition WIPED : string :=
  "My memory has been completely wiped for this session. What's your name again?".

Definition NOT_FUNCTIONAL : string :=
  "Chatbot is not functional. Please check your GROQ_API_KEY.".

Definition append_message (r c : string) (ss : SessionState) : SessionState :=
  {| session_id := session_id ss;
     language := language ss;
     messages := (messages ss ++ [{| role := r; content := c |}])%list |}.

Definition render (m : DisplayMessage) : Element :=
  st_markdown (chat_message (role m)) (content m).

(** Lines 131-137: the session id in the sidebar and the messages so
    far. *)
Definition page (ss : SessionState) : list Element :=
  st_markdown sidebar ("**Current Session ID:** `" ++ session_id ss ++ "`")
  :: (render <$> messages ss).

(** Lines 119-123 and 127-129: clear the history of the current id in
    the dictionary of this run ([run_store]), start a new session, rerun.
    The dictionary that the chain keeps ([kept]) is not the one cleared. *)
Definition wipe_and_restart (ev : Event) (run_store kept : Store)
    (ss : SessionState) : Outcome :=
  let run_store := store_clear (session_id ss) run_store in
  {| world := {| store := kept;
                 session := init_chat_session (uuid4 ev) (language ss) |};
     shown := [];
     request := None;
     control := Rerun |}.

(** Lines 146-196: a submitted text when the chain exists.  [above] is
    what the run has shown so far.  Of the placeholder of line 161 only
    the last content is recorded (each [markdown] call replaces the one
    before).  [request] is what the chain hands to the model.  The script
    reads and clears [run_store], the dictionary of this run (lines 153
    and 165); the chain reads and writes [kept], the dictionary it was
    built with. *)
Definition chat_turn (llm : ChatGroq) (ev : Event) (text : string)
    (above : list Element) (run_store kept : Store) (ss : SessionState)
  : Outcome :=
  let ss := append_message "user" text ss in
  let above := (above ++ [st_markdown (chat_message "user") text])%list in
  if String.eqb (Str.strip (Str.lower text)) "forget everything" then
    let run_store := store_clear (session_id ss) run_store in
    {| world := {| store := kept;
                   session := append_message "assistant" WIPED ss |};
       shown := (above ++ [st_markdown (chat_message "assistant") WIPED])%list;
       request := None;
       control := Rerun |}
  else
    let run_store := get_session_history (session_id ss) run_store in
    let full_messages_for_chain :=
      (history_messages (session_id ss) run_store ++ [HumanMessage text])%list in
    let r := chatbot_chain_stream llm full_messages_for_chain (language ss)
               (session_id ss) (llm_reply ev) kept in
    let full_response := Str.concat (reply_chunks (llm_reply ev)) in
    let bubble :=
      match llm_reply ev with
      | Completed _ => [st_markdown (chat_message "assistant") full_response]
      | Raised _ e =>
          [st_markdown (chat_message "assistant")
             "An error occurred. Please try again or check the API key.";
           st_error (chat_message "assistant") e]
      end in
    {| world := {| store := streamed_store r;
                   session := if Str.truthy full_response
                              then append_message "assistant" full_response ss
                              else ss |};
       shown := (above ++ bubble)%list;
       request := Some (streamed_request r);
       control := Finished |}.

(** One run of the script from line 100 on, with the dictionary that
    line 29 has just made for this run.  [chatbot_chain] is the cached
    chain: [None] when the model failed to load.  [shown] is what lines
    100-196 show; what lines 16-26 show in the same run comes before it,
    see [whole_run]. *)
Definition script (chatbot_chain : option ChatGroq) (ev : Event) (w : World)
  : Outcome :=
  let run_store : Store := ∅ in
  let kept := store w in
  let prev_language := language (session w) in
  let ss := {| session_id := session_id (session w);
               language := language_select ev;
               messages := messages (session w) |} in
  if bool_decide (language ss ≠ prev_language)
  then wipe_and_restart ev run_store kept ss
  else if new_chat_button ev then wipe_and_restart ev run_store kept ss
  else
    let idle := {| world := {| store := kept; session := ss |};
                   shown := page ss; request := None; control := Finished |} in
    match chat_input ev with
    | None => idle
    | Some text =>
        if negb (Str.truthy text) then idle
        else
          match chatbot_chain with
          | None =>
              {| world := {| store := kept; session := ss |};
                 shown := (page ss ++ [st_error (chat_message "assistant")
                                         NOT_FUNCTIONAL])%list;
                 request := None;
                 control := Stopped |}
          | Some llm => chat_turn llm ev text (page ss) run_store kept ss
          end
    end.

(** One whole run, from line 14: every run loads the model again and
    shows the error of line 20 or 25 when there is none, then runs the
    rest of the script with the chain [get_chatbot_chain] returns for that
    model. *)
Definition whole_run (groq_api_key : option string)
    (ctor : string -> string + ChatGroq) (ev : Event) (w : World) : Outcome :=
  let loaded := load_model groq_api_key ctor in
  let o := script loaded.2 ev w in
  {| world := world o;
     shown := (loaded.1 ++ shown o)%list;
     request := request o;
     control := control o |}.

(** The run that [st.rerun()] starts: same widget values, the button not
    pressed, no submitted text. *)
Definition rerun_event (ev : Event) : Event :=
  {| language_select := language_select ev;
     new_chat_button := false;
     chat_input := None;
     uuid4 := uuid4 ev;
     llm_reply := llm_reply ev |}.

(** One UI event handled to the end: the run it triggers and, when that
    run asks for it, the rerun.  The request of the event is that of its
    first run. *)
Definition handle (chatbot_chain : option ChatGroq) (ev : Event) (w : World)
  : Outcome :=
  let o := script chatbot_chain ev w in
  match control o with
  | Rerun =>
      let o' := script chatbot_chain (rerun_event ev) (world o) in
      {| world := world o'; shown := shown o';
         request := request o; control := control o' |}
  | _ => o
  end.

Fixpoint run (chatbot_chain : option ChatGroq) (evs : list Event) (w : World)
  : World :=
  match evs with
  | [] => w
  | ev :: evs' => run chatbot_chain evs' (world (handle chatbot_chain ev w))
  end.

(** The states of one browser session of a process. *)
Inductive reachable (chatbot_chain : option ChatGroq) : World -> Prop :=
  | reachable_first_load (u : N) : reachable chatbot_chain (first_load u)
  | reachable_handle (w : World) (ev : Event) :
      reachable chatbot_chain w ->
      reachable chatbot_chain (world (handle chatbot_chain ev w)).

(** The session ids issued up to and including each event of a run. *)
Fixpoint issued_ids (chatbot_chain : option ChatGroq) (evs : list Event)
    (w : World) : list string :=
  match evs with
  | [] => []
  | ev :: evs' =>
      let w' := world (handle chatbot_chain ev w) in
      session_id (session w') :: issued_ids chatbot_chain evs' w'
  end.

(** ** Notions used in the statements *)

(** The [SystemMessage] at index 0, if there is one, and what follows. *)
Definition leading_system (l : list BaseMessage) : list BaseMessage :=
  match l with
  | SystemMessage c :: _ => [SystemMessage c]
  | _ => []
  end.

Definition after_system (l : list BaseMessage) : list BaseMessage :=
  match l with
  | SystemMessage _ :: rest => rest
  | _ => l
  end.

(** The budget [trim_messages] has for the messages after the leading
    system message. *)
Definition remaining_budget (token_counter : list BaseMessage -> nat)
    (max_tokens : nat) (l : list BaseMessage) : nat :=
  match l with
  | SystemMessage c :: _ => max_tokens - token_counter [SystemMessage c]
  | _ => max_tokens
  end.

Definition oldest_non_system (l : list BaseMessage) : option BaseMessage :=
  head (filter (fun m => is_system m = false) l).

(** A counter for the examples: one token per character of content. *)
Definition char_counter (l : list BaseMessage) : nat :=
  foldr (fun m acc => String.length (message_content m) + acc) 0 l.

Definition char_llm : ChatGroq :=
  {| get_num_tokens_from_messages := char_counter |}.

Definition long_text : string :=
  string_of_list_ascii (replicate 201 "x"%char).

(** [not groq_api_key] *)
Definition key_absent (groq_api_key : option string) : Prop :=
  match groq_api_key with
  | None => True
  | Some key => key = ""
  end.

(** No stored sequence holds a system message. *)
Definition no_system_stored (st : Store) : Prop :=
  forall id ms, st !! id = Some ms -> Forall (fun m => role_of m <> system) ms.

(** A text that is the reset command of line 152. *)
Definition is_reset_command (text : string) : Prop :=
  Str.strip (Str.lower text) = "forget everything".

(** A run in which a text is submitted and nothing else is touched. *)
Definition submits (ev : Event) (w : World) (text : string) : Prop :=
  chat_input ev = Some text /\ text <> ""
  /\ language_select ev = language (session w)
  /\ new_chat_button ev = false.

(** What one run can do to the dictionary that the chain keeps, for the
    session id [id]: nothing, create the entry, or record a completed
    exchange. *)
Inductive store_step (id : string) (st : Store) : Store -> Prop :=
  | step_same : store_step id st st
  | step_get : store_step id st (get_session_history id st)
  | step_exchange (text reply : string) :
      store_step id st
        (<[id := (history_messages id st
                  ++ [HumanMessage text; AIMessage reply])%list]>
           (get_session_history id st)).

(** ** Inputs for the examples *)

(** Three version-4 UUIDs; the first two share their first eight
    hexadecimal digits. *)
Definition UUID_A : N := 0x3f2a9c1e5b7d4e8a9c41d2e6f8a1b3c5%N.
Definition UUID_A' : N := 0x3f2a9c1e0d4b4c7e8a156b9e2f7c0a48%N.
Definition UUID_B : N := 0xa81b6d02c39f41d7b05e7a2c94e6d113%N.

(** A run that submits [text], to which the model would reply [r]. *)
Definition submit_event (l : Language) (text : string) (r : Reply) : Event :=
  {| language_select := l; new_chat_button := false;
     chat_input := Some text; uuid4 := UUID_B; llm_reply := r |}.

(** A run after the language selector was set to [l]. *)
Definition select_event (l : Language) (u : N) : Event :=
  {| language_select := l; new_chat_button := false;
     chat_input := None; uuid4 := u; llm_reply := Completed [] |}.

(** A run after "Start New Chat" was pressed. *)
Definition button_event (l : Language) (u : N) : Event :=
  {| language_select := l; new_chat_button := true;
     chat_input := None; uuid4 := u; llm_reply := Completed [] |}.

(** A fresh process in which the user has sent "Hi" and got "Hello!". *)
Definition after_hi : World :=
  world (handle (Some char_llm)
           (submit_event English "Hi" (Completed ["Hel"; "lo!"]))
           (first_load UUID_A)).

(** ** Notions used in the further properties *)

(** Strings of white space ([str.isspace] on every character). *)
Fixpoint all_space (s : string) : bool :=
  match s with
  | EmptyString => true
  | String c s' => Str.isspace c && all_space s'
  end.

(** Lower-case hexadecimal digits. *)
Definition is_hex_digit (c : ascii) : bool :=
  let n := Str.code c in
  ((48 <=? n) && (n <=? 57) || (97 <=? n) && (n <=? 102))%N.

Fixpoint all_hex (s : string) : bool :=
  match s with
  | EmptyString => true
  | String c s' => is_hex_digit c && all_hex s'
  end.

(** The 32 most significant bits of a 128-bit UUID. *)
Definition top32 (u : N) : N := ((u mod 2 ^ 128) / 2 ^ 96)%N.

(** The roles the script gives to the entries of the display list. *)
Definition valid_role (m : DisplayMessage) : Prop :=
  role m = "user" \/ role m = "assistant".

(** What the display list gains after the user's text: the reply, when it
    is not empty (line 195). *)
Definition shown_reply (full_response : string) : list DisplayMessage :=
  if Str.truthy full_response
  then [{| role := "assistant"; content := full_response |}]
  else [].

(** What every reachable session state satisfies. *)
Definition session_ok (ss : SessionState) : Prop :=
  head (messages ss) = Some (welcome (language ss))
  /\ Forall valid_role (messages ss)
  /\ exists u, session_id ss = new_session_id u.

(** A counter that adds up a count per message, as a chat model's
    [get_num_tokens_from_messages] does. *)
Definition additive_counter (token_counter : list BaseMessage -> nat) : Prop :=
  exists f, forall l, token_counter l = sum_list_with f l.

(** ** The session store *)

Section StoreFacts.

Implicit Types (st : Store) (id : string) (ms : list BaseMessage).

Lemma get_session_history_lookup id st :
  get_session_history id st !! id = Some (history_messages id st).
Proof.
  unfold get_session_history, history_messages.
  destruct (st !! id) as [ms|] eqn:E; simpl.
  - exact E.
  - apply lookup_insert_eq.
Qed.

Lemma get_session_history_other id id' st :
  id <> id' -> get_session_history id st !! id' = st !! id'.
Proof.
  intros Hne. unfold get_session_history.
  destruct (st !! id); [reflexivity | by rewrite lookup_insert_ne].
Qed.

Lemma get_session_history_present id st ms :
  st !! id = Some ms -> get_session_history id st = st.
Proof. intros E. unfold get_session_history. by rewrite E. Qed.

Lemma history_messages_get id st :
  history_messages id (get_session_history id st) = history_messages id st.
Proof.
  unfold history_messages at 1. by rewrite get_session_history_lookup.
Qed.

Lemma store_clear_lookup id st : store_clear id st !! id = Some [].
Proof. unfold store_clear, history_clear. apply lookup_insert_eq. Qed.

Lemma store_clear_other id id' st :
  id <> id' -> store_clear id st !! id' = st !! id'.
Proof.
  intros Hne. unfold store_clear, history_clear.
  rewrite lookup_insert_ne by done. by apply get_session_history_other.
Qed.

Lemma store_get_cleared id st :
  st !! id = Some [] -> store_get id st = (st, []).
Proof.
  intros E. unfold store_get.
  rewrite (get_session_history_present _ _ _ E).
  unfold history_messages. by rewrite E.
Qed.

Lemma store_gets_cleared n id st :
  st !! id = Some [] -> store_gets n id st = (st, replicate n []).
Proof.
  intros E. induction n as [|n IH]; [reflexivity|].
  cbn [store_gets]. rewrite (store_get_cleared _ _ E), IH. reflexivity.
Qed.

End StoreFacts.

(** C8: whatever was appended before, [clear] on an id followed by any
    number of [get]s on that id returns the empty sequence each time, and
    the key of the id is still in the store (bound to the empty
    sequence). *)
Theorem C8_clear_then_get (id : string) (ops : list (string * BaseMessage))
    (st0 : Store) (n : nat) :
  let st := store_clear id (store_appends ops st0) in
  store_gets n id st = (st, replicate n [])
  /\ st !! id = Some []
  /\ id ∈ dom st.
Proof.
  intros st.
  assert (E : st !! id = Some []) by apply store_clear_lookup.
  split; [by apply store_gets_cleared|].
  split; [exact E|].
  apply elem_of_dom. by exists [].
Qed.

Example store_roundtrip :
  store_get "s" (store_clear "s"
    (store_appends [("s", HumanMessage "hi"); ("t", AIMessage "yo")] ∅))
  = ({[ "s" := []; "t" := [AIMessage "yo"] ]}, []).
Proof. by vm_compute. Qed.

(** ** The history trimmer *)

Section TrimmerFacts.

Variable token_counter : list BaseMessage -> nat.
Implicit Types (l : list BaseMessage) (n idx budget : nat).

Lemma fitting_prefix_le budget l n : fitting_prefix token_counter budget l n ≤ n.
Proof.
  induction n as [|n IH]; cbn [fitting_prefix]; [lia|].
  destruct (_ <=? _)%nat; lia.
Qed.

Lemma fitting_prefix_fits budget l n :
  fitting_prefix token_counter budget l n = 0
  \/ token_counter (take (fitting_prefix token_counter budget l n) l) ≤ budget.
Proof.
  induction n as [|n IH]; cbn [fitting_prefix]; [by left|].
  destruct (token_counter (take (S n) l) <=? budget)%nat eqn:E; [|exact IH].
  right. by apply Nat.leb_le.
Qed.

(** A prefix that fits is found, or a longer one is. *)
Lemma fitting_prefix_ge budget l n k :
  1 ≤ k ≤ n -> token_counter (take k l) ≤ budget ->
  k ≤ fitting_prefix token_counter budget l n.
Proof.
  induction n as [|n IH]; intros Hk Hfit; [lia|].
  cbn [fitting_prefix].
  destruct (token_counter (take (S n) l) <=? budget)%nat eqn:E; [lia|].
  apply Nat.leb_gt in E.
  destruct (decide (k = S n)) as [->|Hne]; [lia|].
  apply IH; [lia | exact Hfit].
Qed.

Lemma end_on_human_le l idx : end_on_human l idx ≤ idx.
Proof.
  induction idx as [|k IH]; cbn [end_on_human]; [lia|].
  destruct (l !! k) as [[]|]; lia.
Qed.

Lemma end_on_human_last l idx :
  end_on_human l idx = 0
  \/ exists k c, end_on_human l idx = S k /\ l !! k = Some (HumanMessage c).
Proof.
  induction idx as [|k IH]; cbn [end_on_human]; [by left|].
  destruct (l !! k) as [[c|c|c]|] eqn:E; try exact IH.
  right. by exists k, c.
Qed.

(** Shortening stops at once on a human message. *)
Lemma end_on_human_ge l idx k c :
  k < idx -> l !! k = Some (HumanMessage c) -> S k ≤ end_on_human l idx.
Proof.
  induction idx as [|i IH]; intros Hk Hh; [lia|].
  cbn [end_on_human].
  destruct (decide (k = i)) as [->|Hne].
  - rewrite Hh. lia.
  - destruct (l !! i) as [[]|]; try lia; apply IH; (lia || done).
Qed.

(** With [strategy="last"] the retained window is a suffix that is
    empty or starts on a human message. *)
Lemma last_window budget l :
  exists k,
    k ≤ length l
    /\ reverse (first_max_tokens token_counter budget (reverse l))
       = drop (length l - k) l
    /\ (k = 0 \/ exists c, l !! (length l - k) = Some (HumanMessage c)).
Proof.
  unfold first_max_tokens.
  set (idx := fitting_prefix token_counter budget (reverse l)
                (length (reverse l))).
  set (k := end_on_human (reverse l) idx).
  assert (Hidx : idx ≤ length l).
  { subst idx. rewrite length_reverse. apply fitting_prefix_le. }
  assert (Hk : k ≤ idx) by apply end_on_human_le.
  exists k. split; [lia|]. split.
  - rewrite take_reverse, reverse_involutive. reflexivity.
  - destruct (end_on_human_last (reverse l) idx) as [E|(j & c & E & Hj)];
      fold k in E; [by left|].
    right. exists c.
    rewrite reverse_lookup in Hj by lia.
    replace (length l - k) with (length l - S j) by lia. exact Hj.
Qed.

Lemma last_window_head budget l :
  exists suf,
    reverse (first_max_tokens token_counter budget (reverse l)) = suf
    /\ suf `suffix_of` l
    /\ (suf = [] \/ exists c suf', suf = HumanMessage c :: suf').
Proof.
  destruct (last_window budget l) as (k & Hk & -> & Hh).
  eexists. split; [reflexivity|]. split; [apply suffix_drop|].
  destruct Hh as [->|[c Hc]].
  - left. rewrite Nat.sub_0_r. apply drop_all.
  - right.
    destruct (drop (length l - k) l) as [|m suf'] eqn:E.
    + apply (f_equal (fun x => x !! 0)) in E.
      rewrite lookup_drop, Nat.add_0_r, Hc in E. discriminate.
    + apply (f_equal (fun x => x !! 0)) in E.
      rewrite lookup_drop, Nat.add_0_r, Hc in E. simpl in E.
      injection E as <-. by exists c, suf'.
Qed.

(** The shape of every output of [trim_messages]. *)
Lemma trim_messages_shape budget l :
  exists suf,
    trim_messages token_counter budget l = (leading_system l ++ suf)%list
    /\ suf `suffix_of` after_system l
    /\ (suf = [] \/ exists c suf', suf = HumanMessage c :: suf').
Proof.
  destruct l as [|m rest].
  - exists []. split; [reflexivity|]. split; [done | by left].
  - destruct m as [c|c|c]; cbn [trim_messages leading_system after_system].
    + destruct (last_window_head
                  (budget - token_counter [SystemMessage c]) rest)
        as (suf & -> & Hs & Hh).
      by exists suf.
    + destruct (last_window_head budget (HumanMessage c :: rest))
        as (suf & -> & Hs & Hh).
      by exists suf.
    + destruct (last_window_head budget (AIMessage c :: rest))
        as (suf & -> & Hs & Hh).
      by exists suf.
Qed.

Lemma leading_after_system l : (leading_system l ++ after_system l)%list = l.
Proof. destruct l as [|[] ?]; reflexivity. Qed.

Lemma trim_messages_sublist budget l :
  trim_messages token_counter budget l `sublist_of` l.
Proof.
  destruct (trim_messages_shape budget l) as (suf & -> & Hs & _).
  rewrite <- (leading_after_system l) at 2.
  apply sublist_app; [done|].
  destruct Hs as [k ->]. by apply sublist_inserts_l.
Qed.

Lemma trim_messages_elem_of budget l m :
  m ∈ trim_messages token_counter budget l -> m ∈ l.
Proof.
  destruct (trim_messages_shape budget l) as (suf & -> & [k Hs] & _).
  pose proof (leading_after_system l) as E. rewrite Hs in E.
  intros H. rewrite <- E. clear E.
  rewrite !elem_of_app in *. tauto.
Qed.

(** The most recent message stays when it is a human message within the
    budget. *)
Lemma last_window_keeps_last budget l c :
  last l = Some (HumanMessage c) ->
  token_counter [HumanMessage c] ≤ budget ->
  last (reverse (first_max_tokens token_counter budget (reverse l)))
  = Some (HumanMessage c).
Proof.
  intros Hlast Hfit.
  assert (Hhead : reverse l !! 0 = Some (HumanMessage c)).
  { rewrite <- head_lookup, head_reverse. exact Hlast. }
  assert (Hlen : 1 ≤ length (reverse l)).
  { destruct (reverse l); [discriminate | simpl; lia]. }
  assert (Htake : take 1 (reverse l) = [HumanMessage c]).
  { destruct (reverse l) as [|x r]; [discriminate|].
    simpl in Hhead. injection Hhead as ->. reflexivity. }
  unfold first_max_tokens.
  set (idx := fitting_prefix token_counter budget (reverse l)
                (length (reverse l))).
  assert (Hidx : 1 ≤ idx).
  { apply fitting_prefix_ge; [lia|]. by rewrite Htake. }
  assert (Hk : 1 ≤ end_on_human (reverse l) idx).
  { eapply end_on_human_ge; [|exact Hhead]. lia. }
  rewrite last_reverse, head_lookup, lookup_take_lt by lia.
  exact Hhead.
Qed.

End TrimmerFacts.

Lemma oldest_non_system_window (l suf : list BaseMessage) :
  suf = [] \/ (exists c suf', suf = HumanMessage c :: suf') ->
  oldest_non_system (leading_system l ++ suf) = head suf.
Proof.
  intros Hsuf. unfold oldest_non_system.
  assert (E : filter (fun m => is_system m = false) (leading_system l) = []).
  { destruct l as [|[] ?]; reflexivity. }
  rewrite filter_app, E. simpl.
  destruct Hsuf as [->|(c & suf' & ->)]; reflexivity.
Qed.

(** On any input: the output of the trimmer is the system message at
    index 0 of the input, when there is one, followed by a suffix of the
    remaining input; the oldest retained non-system message, when the
    output has one, has role user. *)
Lemma trim_messages_starts_on_user (token_counter : list BaseMessage -> nat)
    (max_tokens : nat) (l : list BaseMessage) :
  exists suf,
    trim_messages token_counter max_tokens l = (leading_system l ++ suf)%list
    /\ suf `suffix_of` after_system l
    /\ match oldest_non_system (trim_messages token_counter max_tokens l) with
       | Some m => role_of m = user /\ head suf = Some m
       | None => suf = []
       end.
Proof.
  destruct (trim_messages_shape token_counter max_tokens l)
    as (suf & E & Hs & Hh).
  exists suf. split; [exact E|]. split; [exact Hs|].
  rewrite E, (oldest_non_system_window l suf Hh).
  destruct Hh as [->|(c & suf' & ->)]; simpl; auto.
Qed.

(** C6: for every budget and every input that does not start with a
    system message (the chain gives the trimmer no other input: it runs
    before the prompt adds the system entry, and no system message is ever
    stored), the output of the trimmer is a suffix of its input, and the
    oldest retained non-system message, which is then the first message of
    the output, has role user; an output without such a message is
    empty. *)
Theorem C6_trimmer_suffix_starts_on_user
    (token_counter : list BaseMessage -> nat) (max_tokens : nat)
    (l : list BaseMessage) :
  leading_system l = [] ->
  trim_messages token_counter max_tokens l `suffix_of` l
  /\ match oldest_non_system (trim_messages token_counter max_tokens l) with
     | Some m =>
         role_of m = user
         /\ head (trim_messages token_counter max_tokens l) = Some m
     | None => trim_messages token_counter max_tokens l = []
     end.
Proof.
  intros Hlead.
  destruct (trim_messages_shape token_counter max_tokens l)
    as (suf & E & Hs & Hh).
  assert (Hafter : after_system l = l).
  { rewrite <- (leading_after_system l) at 2. by rewrite Hlead. }
  rewrite Hlead in E. rewrite Hafter in Hs. cbn [app] in E.
  rewrite E. split; [exact Hs|].
  pose proof (oldest_non_system_window l suf Hh) as Ho.
  rewrite Hlead in Ho. cbn [app] in Ho. rewrite Ho.
  destruct Hh as [->|(c & suf' & ->)]; simpl; auto.
Qed.

Lemma C6_witness :
  trim_messages char_counter 3
    [HumanMessage "big"; AIMessage "x"; HumanMessage "y"; AIMessage "z"]
  `suffix_of`
    [HumanMessage "big"; AIMessage "x"; HumanMessage "y"; AIMessage "z"].
Proof.
  apply (C6_trimmer_suffix_starts_on_user char_counter 3
           [HumanMessage "big"; AIMessage "x"; HumanMessage "y"; AIMessage "z"]).
  reflexivity.
Defined.

(** With a system message at index 0, an input the chain never gives the
    trimmer, [include_system=True] keeps that message in front while older
    messages behind it are dropped. *)
Example trimmer_keeps_leading_system :
  ~ (trimmer char_counter
       [SystemMessage "s"; HumanMessage long_text; HumanMessage "y"]
     `suffix_of` [SystemMessage "s"; HumanMessage long_text; HumanMessage "y"]).
Proof.
  assert (E : trimmer char_counter
                [SystemMessage "s"; HumanMessage long_text; HumanMessage "y"]
              = [SystemMessage "s"; HumanMessage "y"]) by (by vm_compute).
  rewrite E. intros [k Hk].
  destruct k as [|a [|b k]].
  - apply (f_equal length) in Hk. discriminate Hk.
  - simpl in Hk. congruence.
  - apply (f_equal length) in Hk. rewrite !length_cons, length_app in Hk.
    simpl in Hk. lia.
Qed.

Example trimmer_drops_oldest :
  trim_messages char_counter 3
    [HumanMessage "big"; AIMessage "x"; HumanMessage "y"; AIMessage "z"]
  = [HumanMessage "y"; AIMessage "z"].
Proof. reflexivity. Qed.

Lemma last_cons_Some {A} (x y : A) (l : list A) :
  last l = Some y -> last (x :: l) = Some y.
Proof. destruct l; [discriminate | done]. Qed.

(** C2, as the code has it: the trimmer returns whole messages of its
    input only (a sub-sequence, nothing cut inside a message).  When the
    most recent message is a user message that the counter puts within the
    budget (what is left of it after a leading system message), the output
    is non-empty and ends with that message. *)
Theorem C2_trimmer_whole_messages (token_counter : list BaseMessage -> nat)
    (max_tokens : nat) (l : list BaseMessage) :
  trim_messages token_counter max_tokens l `sublist_of` l
  /\ forall c,
       last (after_system l) = Some (HumanMessage c) ->
       token_counter [HumanMessage c]
         ≤ remaining_budget token_counter max_tokens l ->
       last (trim_messages token_counter max_tokens l) = Some (HumanMessage c).
Proof.
  split; [apply trim_messages_sublist|].
  intros c Hlast Hfit.
  destruct l as [|m rest]; [discriminate|].
  destruct m as [s|s|s];
    cbn [trim_messages after_system remaining_budget] in *.
  - apply last_cons_Some. by apply last_window_keeps_last.
  - by apply last_window_keeps_last.
  - by apply last_window_keeps_last.
Qed.

Lemma C2_witness :
  last (trim_messages char_counter 200
          [HumanMessage "A"; AIMessage "a"; HumanMessage "B"])
  = Some (HumanMessage "B").
Proof.
  apply (proj2 (C2_trimmer_whole_messages char_counter 200
                  [HumanMessage "A"; AIMessage "a"; HumanMessage "B"])).
  - reflexivity.
  - vm_compute. lia.
Defined.

(** C2 as stated fails: a single user message of more than 200 tokens is
    trimmed to the empty sequence. *)
Lemma C2_empty_output :
  [HumanMessage long_text] <> []
  /\ trimmer char_counter [HumanMessage long_text] = [].
Proof. split; [discriminate | by vm_compute]. Qed.

(** Whatever the counter, an input without a user message is trimmed to
    nothing. *)
Example trimmer_assistant_only (token_counter : list BaseMessage -> nat) :
  trimmer token_counter [AIMessage "Hello"] = [].
Proof.
  unfold trimmer, trim_messages, first_max_tokens. simpl.
  destruct (_ <=? _); reflexivity.
Qed.

(** ** Runs of the script *)

Section ScriptFacts.

Variable chatbot_chain : option ChatGroq.
Implicit Types (ev : Event) (w : World) (ss : SessionState) (st : Store).

Lemma session_eta ss :
  {| session_id := session_id ss; language := language ss;
     messages := messages ss |} = ss.
Proof. by destruct ss. Qed.

Lemma world_eta w : {| store := store w; session := session w |} = w.
Proof. by destruct w. Qed.

(** Nothing touched and nothing submitted: the run only shows the
    page. *)
Lemma script_quiet ev w :
  language_select ev = language (session w) ->
  new_chat_button ev = false ->
  chat_input ev = None ->
  script chatbot_chain ev w
  = {| world := w; shown := page (session w);
       request := None; control := Finished |}.
Proof.
  intros Hl Hb Hc. unfold script. rewrite Hl, Hb, Hc.
  rewrite bool_decide_eq_false_2 by (simpl; auto).
  by rewrite session_eta, world_eta.
Qed.

(** After any run the stored language is the selected one. *)
Lemma script_language ev w :
  language (session (world (script chatbot_chain ev w))) = language_select ev.
Proof.
  unfold script, wipe_and_restart, chat_turn.
  repeat (case_bool_decide || case_match); reflexivity.
Qed.

Lemma script_rerun_request ev w :
  control (script chatbot_chain ev w) = Rerun ->
  request (script chatbot_chain ev w) = None.
Proof.
  unfold script, wipe_and_restart, chat_turn.
  repeat (case_bool_decide || case_match); simpl; congruence.
Qed.

(** The rerun changes nothing: an event leaves the world that its first
    run leaves. *)
Lemma handle_world ev w :
  world (handle chatbot_chain ev w) = world (script chatbot_chain ev w).
Proof.
  unfold handle.
  destruct (control (script chatbot_chain ev w)); try reflexivity.
  rewrite script_quiet; [reflexivity| |reflexivity|reflexivity].
  simpl. by rewrite script_language.
Qed.

Lemma handle_request ev w :
  request (handle chatbot_chain ev w) = request (script chatbot_chain ev w).
Proof.
  unfold handle. by destruct (control (script chatbot_chain ev w)).
Qed.

Lemma handle_control ev w : control (handle chatbot_chain ev w) <> Rerun.
Proof.
  unfold handle.
  destruct (control (script chatbot_chain ev w)) eqn:E;
    simpl; rewrite ?E; try discriminate.
  rewrite script_quiet; [discriminate| |reflexivity|reflexivity].
  simpl. by rewrite script_language.
Qed.

(** A language change or the button: the run clears its own dictionary
    and a new session starts. *)
Lemma script_restart ev w :
  language_select ev <> language (session w) \/ new_chat_button ev = true ->
  script chatbot_chain ev w
  = wipe_and_restart ev ∅ (store w)
      {| session_id := session_id (session w);
         language := language_select ev;
         messages := messages (session w) |}.
Proof.
  intros H. unfold script.
  case_bool_decide as Hd; [reflexivity|].
  destruct H as [H| ->]; [|reflexivity].
  simpl in Hd. congruence.
Qed.

(** A submitted text, nothing else touched. *)
Lemma script_submits ev w text :
  submits ev w text ->
  script chatbot_chain ev w
  = match chatbot_chain with
    | None =>
        {| world := w;
           shown := (page (session w)
                     ++ [st_error (chat_message "assistant") NOT_FUNCTIONAL])%list;
           request := None;
           control := Stopped |}
    | Some llm =>
        chat_turn llm ev text (page (session w)) ∅ (store w) (session w)
    end.
Proof.
  intros (Hc & Ht & Hl & Hb). unfold script. rewrite Hl, Hb, Hc.
  rewrite bool_decide_eq_false_2 by (simpl; auto).
  destruct text as [|a text]; [done|]. simpl.
  rewrite session_eta, world_eta. reflexivity.
Qed.

End ScriptFacts.

Example first_session_id : new_session_id UUID_A = "chat_3f2a9c1e".
Proof. by vm_compute. Qed.

Example reset_phrase_recognised :
  is_reset_command "  Forget EVERYTHING " /\ ~ is_reset_command "forget  everything".
Proof. split; [by vm_compute | by intros H; vm_compute in H]. Qed.

Example after_hi_store :
  store after_hi = {[ "chat_3f2a9c1e" := [HumanMessage "Hi"; AIMessage "Hello!"] ]}.
Proof. by vm_compute. Qed.

(** C10, as the code has it: when the selected language is the previous
    one, no text is submitted and the "Start New Chat" button is not
    pressed, the run leaves the session identifier, the store and the
    display list (the whole state) as they were and sends nothing to the
    model. *)
Theorem C10_untouched_run_changes_nothing (chatbot_chain : option ChatGroq)
    (ev : Event) (w : World) :
  language_select ev = language (session w) ->
  chat_input ev = None ->
  new_chat_button ev = false ->
  let o := handle chatbot_chain ev w in
  session_id (session (world o)) = session_id (session w)
  /\ store (world o) = store w
  /\ messages (session (world o)) = messages (session w)
  /\ world o = w
  /\ request o = None.
Proof.
  intros Hl Hc Hb o. subst o.
  rewrite handle_world, handle_request, script_quiet by done.
  simpl. auto.
Qed.

Lemma C10_witness :
  world (handle (Some char_llm) (select_event English UUID_B) after_hi)
  = after_hi.
Proof.
  apply (C10_untouched_run_changes_nothing (Some char_llm)
           (select_event English UUID_B) after_hi); reflexivity.
Defined.

(** C10 as stated fails: with the same language and no submitted text, a
    run in which "Start New Chat" was pressed takes the
    clear-and-reinitialize path too. *)
Lemma C10_button_restarts :
  language_select (button_event English UUID_B) = language (session after_hi)
  /\ chat_input (button_event English UUID_B) = None
  /\ session_id (session (world (handle (Some char_llm)
                                   (button_event English UUID_B) after_hi)))
     <> session_id (session after_hi)
  /\ messages (session (world (handle (Some char_llm)
                                 (button_event English UUID_B) after_hi)))
     <> messages (session after_hi).
Proof.
  split; [reflexivity|]. split; [reflexivity|].
  split; intros H; vm_compute in H; discriminate H.
Qed.

(** C9: when the API key is absent ([None] or empty) the start-up shows
    an error and goes on without a model (it does not raise); afterwards
    no run sends a request to the model, and a run that submits a text
    shows the "not functional" error in an assistant bubble, stops, and
    leaves the state as it was. *)
Theorem C9_missing_api_key (groq_api_key : option string)
    (ctor : string -> string + ChatGroq) :
  key_absent groq_api_key ->
  let chatbot_chain := (load_model groq_api_key ctor).2 in
  (load_model groq_api_key ctor).1
  = [st_error main
       "GROQ_API_KEY not found. Please set it in your .env file or Streamlit secrets."]
  /\ chatbot_chain = None
  /\ forall ev w,
       request (handle chatbot_chain ev w) = None
       /\ forall text,
            submits ev w text ->
            last (shown (handle chatbot_chain ev w))
            = Some (st_error (chat_message "assistant") NOT_FUNCTIONAL)
            /\ control (handle chatbot_chain ev w) = Stopped
            /\ world (handle chatbot_chain ev w) = w.
Proof.
  intros Habs.
  assert (E : load_model groq_api_key ctor
              = ([st_error main
                    "GROQ_API_KEY not found. Please set it in your .env file or Streamlit secrets."],
                 None)).
  { destruct groq_api_key as [key|]; [|reflexivity].
    simpl in Habs. subst key. reflexivity. }
  rewrite E. cbn [fst snd].
  split; [reflexivity|]. split; [reflexivity|].
  intros ev w. split.
  - rewrite handle_request. unfold script, wipe_and_restart.
    repeat (case_bool_decide || case_match); reflexivity.
  - intros text Hs. unfold handle.
    rewrite (script_submits None ev w text Hs). cbn [control shown world].
    split; [apply last_snoc | by split].
Qed.

Lemma C9_witness :
  request (handle (load_model None (fun _ => inr char_llm)).2
             (submit_event English "Hi" (Completed ["Hello"]))
             (first_load UUID_A)) = None
  /\ control (handle (load_model None (fun _ => inr char_llm)).2
                (submit_event English "Hi" (Completed ["Hello"]))
                (first_load UUID_A)) = Stopped.
Proof.
  pose proof (C9_missing_api_key None (fun _ => inr char_llm) I) as H.
  destruct H as (_ & _ & H).
  destruct (H (submit_event English "Hi" (Completed ["Hello"]))
              (first_load UUID_A)) as [Hreq Hsub].
  split; [exact Hreq|].
  apply (Hsub "Hi"). repeat split; discriminate.
Defined.

Section ResetPhrase.

Variables (ev : Event) (w : World) (text : string).
Hypothesis Hsubmits : submits ev w text.
Hypothesis Hreset : is_reset_command text.

(** What line 152-157 does, for the chain [Some llm].  The [clear] of
    line 153 empties an entry of the dictionary of the run; what the
    chain keeps is as it was. *)
Lemma reset_phrase_outcome (llm : ChatGroq) :
  world (handle (Some llm) ev w)
  = {| store := store w;
       session := append_message "assistant" WIPED
                    (append_message "user" text (session w)) |}
  /\ request (handle (Some llm) ev w) = None.
Proof.
  rewrite handle_world, handle_request.
  rewrite (script_submits (Some llm) ev w text Hsubmits).
  unfold chat_turn. red in Hreset. rewrite Hreset. by simpl.
Qed.

End ResetPhrase.

(** C3, as the code has it: submitting the reserved phrase keeps the
    session: the session identifier and the language stay as they are (no
    new identifier is allocated), the display list is not re-seeded with
    the welcome message but grows by the user's text and the confirmation,
    and nothing is sent to the model. *)
Theorem C3_reset_phrase_keeps_session (llm : ChatGroq) (ev : Event)
    (w : World) (text : string) :
  submits ev w text ->
  is_reset_command text ->
  let w' := world (handle (Some llm) ev w) in
  session_id (session w') = session_id (session w)
  /\ language (session w') = language (session w)
  /\ messages (session w')
     = (messages (session w)
        ++ [{| role := "user"; content := text |};
            {| role := "assistant"; content := WIPED |}])%list
  /\ request (handle (Some llm) ev w) = None.
Proof.
  intros Hs Hr w'. subst w'.
  destruct (reset_phrase_outcome ev w text Hs Hr llm) as [-> ->].
  cbn [store session append_message session_id language messages].
  repeat split; try reflexivity.
  by rewrite <- app_assoc.
Qed.

Lemma C3_witness :
  session_id (session (world (handle (Some char_llm)
     (submit_event English " Forget Everything" (Completed ["ok"])) after_hi)))
  = session_id (session after_hi).
Proof.
  apply (C3_reset_phrase_keeps_session char_llm
           (submit_event English " Forget Everything" (Completed ["ok"]))
           after_hi " Forget Everything").
  - repeat split; discriminate.
  - reflexivity.
Defined.

(** C3 as stated fails: after the reserved phrase the session identifier
    is the old one and the display list is not the re-seeded welcome
    message, unlike after [init_chat_session]. *)
Lemma C3_no_new_session :
  let w' := world (handle (Some char_llm)
                     (submit_event English "forget everything" (Completed ["ok"]))
                     after_hi) in
  session_id (session w') = session_id (session after_hi)
  /\ session_id (session w') <> new_session_id UUID_B
  /\ messages (session w') <> [welcome English].
Proof.
  split; [by vm_compute|].
  split; intros H; vm_compute in H; discriminate H.
Qed.

(** C4, as the code has it: a submitted text whose lower-cased, stripped
    form is "forget everything" never reaches the model; when the chain
    exists the display list grows by the user's text and exactly one
    assistant message, the confirmation of the wipe; when the chain is
    missing (no model) the guard of line 141 stops the run first: the
    "not functional" error is shown and no display message is added. *)
Theorem C4_reset_phrase_no_model_call (chatbot_chain : option ChatGroq)
    (ev : Event) (w : World) (text : string) :
  submits ev w text ->
  is_reset_command text ->
  request (handle chatbot_chain ev w) = None
  /\ match chatbot_chain with
     | Some _ =>
         messages (session (world (handle chatbot_chain ev w)))
         = (messages (session w)
            ++ [{| role := "user"; content := text |};
                {| role := "assistant"; content := WIPED |}])%list
     | None =>
         world (handle chatbot_chain ev w) = w
         /\ last (shown (handle chatbot_chain ev w))
            = Some (st_error (chat_message "assistant") NOT_FUNCTIONAL)
     end.
Proof.
  intros Hs Hr. destruct chatbot_chain as [llm|].
  - destruct (reset_phrase_outcome ev w text Hs Hr llm) as [-> ->].
    split; [reflexivity|]. simpl. by rewrite <- app_assoc.
  - rewrite handle_world, handle_request. unfold handle.
    rewrite (script_submits None ev w text Hs). cbn [control shown world request].
    split; [reflexivity|]. split; [reflexivity | apply last_snoc].
Qed.

Lemma C4_witness :
  request (handle (Some char_llm)
             (submit_event English "FORGET EVERYTHING " (Completed ["ok"]))
             after_hi) = None.
Proof.
  apply (C4_reset_phrase_no_model_call (Some char_llm)
           (submit_event English "FORGET EVERYTHING " (Completed ["ok"]))
           after_hi "FORGET EVERYTHING ").
  - repeat split; discriminate.
  - reflexivity.
Defined.

(** C4 as stated fails: without a model the reserved phrase gets the
    "not functional" error and no confirmation is added to the display
    list. *)
Lemma C4_no_confirmation_without_model :
  is_reset_command "forget everything"
  /\ messages (session (world (handle None
       (submit_event English "forget everything" (Completed ["ok"]))
       (first_load UUID_A))))
     = messages (session (first_load UUID_A))
  /\ last (shown (handle None
       (submit_event English "forget everything" (Completed ["ok"]))
       (first_load UUID_A)))
     = Some (st_error (chat_message "assistant") NOT_FUNCTIONAL).
Proof. repeat split. Qed.

(** ** Chat turns and the store *)

Section ChatTurnFacts.

Implicit Types (ev : Event) (w : World) (ss : SessionState) (st : Store).

Lemma get_session_history_idem id st :
  get_session_history id (get_session_history id st)
  = get_session_history id st.
Proof.
  eapply get_session_history_present, get_session_history_lookup.
Qed.

(** The dictionary of a run holds no messages when the script reads it at
    line 168. *)
Lemma history_messages_fresh id :
  history_messages id (get_session_history id ∅) = [].
Proof. rewrite history_messages_get. reflexivity. Qed.

(** The wrapper puts the history of its dictionary in front of the
    messages it is given; on exit it stores those messages and the
    reply. *)
Lemma chatbot_chain_stream_store llm input lang id reply st :
  streamed_store (chatbot_chain_stream llm input lang id reply st)
  = match reply with
    | Completed chunks =>
        <[id := (history_messages id st
                 ++ input ++ [AIMessage (Str.concat chunks)])%list]>
          (get_session_history id st)
    | Raised _ _ => get_session_history id st
    end.
Proof.
  unfold chatbot_chain_stream. cbn [streamed_store].
  destruct reply as [chunks|chunks e]; [|reflexivity].
  unfold exit_history, enter_history, history_add_messages.
  rewrite !history_messages_get, drop_app_length. reflexivity.
Qed.

Lemma chat_turn_store llm ev text above st ss :
  ~ is_reset_command text ->
  store (world (chat_turn llm ev text above ∅ st ss))
  = match llm_reply ev with
    | Completed chunks =>
        <[session_id ss :=
            (history_messages (session_id ss) st
             ++ [HumanMessage text; AIMessage (Str.concat chunks)])%list]>
          (get_session_history (session_id ss) st)
    | Raised _ _ => get_session_history (session_id ss) st
    end.
Proof.
  intros Hn. unfold chat_turn.
  destruct (String.eqb_spec (Str.strip (Str.lower text)) "forget everything")
    as [E|_]; [by destruct Hn|].
  cbn [world store append_message session_id language].
  rewrite history_messages_fresh. apply chatbot_chain_stream_store.
Qed.

Lemma chat_turn_request llm ev text above st ss req :
  request (chat_turn llm ev text above ∅ st ss) = Some req ->
  req = prompt (language ss)
          (trimmer (get_num_tokens_from_messages llm)
             (history_messages (session_id ss) st ++ [HumanMessage text]))%list.
Proof.
  unfold chat_turn.
  destruct (String.eqb _ _); [discriminate|].
  cbn [request append_message session_id language].
  unfold chatbot_chain_stream. cbn [streamed_request].
  rewrite history_messages_fresh, history_messages_get.
  intros [= <-]. reflexivity.
Qed.

Lemma chat_turn_store_step llm ev text above st ss :
  store_step (session_id ss) st
    (store (world (chat_turn llm ev text above ∅ st ss))).
Proof.
  destruct (decide (is_reset_command text)) as [Hr|Hn].
  - unfold chat_turn. red in Hr. rewrite Hr. simpl. constructor.
  - rewrite chat_turn_store by done.
    destruct (llm_reply ev); constructor.
Qed.

Lemma script_store_step chatbot_chain ev w :
  store_step (session_id (session w)) (store w)
    (store (world (script chatbot_chain ev w))).
Proof.
  unfold script, wipe_and_restart.
  repeat (case_bool_decide || case_match); cbn [world store];
    try constructor.
  apply (chat_turn_store_step _ _ _ _ _
           {| session_id := session_id (session w);
              language := language_select ev;
              messages := messages (session w) |}).
Qed.

Lemma handle_store_step chatbot_chain ev w :
  store_step (session_id (session w)) (store w)
    (store (world (handle chatbot_chain ev w))).
Proof. rewrite handle_world. apply script_store_step. Qed.

(** A run writes to the entry of the current session id only. *)
Lemma store_step_other id st st' id' :
  store_step id st st' -> id' <> id -> st' !! id' = st !! id'.
Proof.
  intros H Hne. destruct H.
  - reflexivity.
  - by apply get_session_history_other.
  - rewrite lookup_insert_ne by done. by apply get_session_history_other.
Qed.

Lemma history_messages_no_system id st :
  no_system_stored st ->
  Forall (fun m => role_of m <> system) (history_messages id st).
Proof.
  intros H. unfold history_messages.
  destruct (st !! id) as [ms|] eqn:E; simpl; [by eapply H | constructor].
Qed.

Lemma no_system_insert id ms st :
  no_system_stored st ->
  Forall (fun m => role_of m <> system) ms ->
  no_system_stored (<[id := ms]> st).
Proof.
  intros H Hms id' ms' E.
  destruct (decide (id = id')) as [->|Hne].
  - rewrite lookup_insert_eq in E. by injection E as <-.
  - rewrite lookup_insert_ne in E by done. by eapply H.
Qed.

Lemma no_system_get id st :
  no_system_stored st -> no_system_stored (get_session_history id st).
Proof.
  intros H. unfold get_session_history.
  destruct (st !! id); [done|]. apply no_system_insert; [done | constructor].
Qed.

Lemma store_step_no_system id st st' :
  store_step id st st' -> no_system_stored st -> no_system_stored st'.
Proof.
  intros H Hst. destruct H.
  - done.
  - by apply no_system_get.
  - apply no_system_insert; [by apply no_system_get|].
    pose proof (history_messages_no_system id st Hst) as HH.
    apply Forall_app. split; [done|]. by repeat constructor.
Qed.

End ChatTurnFacts.

(** What a completed, non-command chat turn stores: the history that was
    there, the user message and the reply. *)
Lemma completed_turn_store (llm : ChatGroq) (ev : Event) (w : World)
    (text : string) (chunks : list string) :
  submits ev w text ->
  ~ is_reset_command text ->
  llm_reply ev = Completed chunks ->
  let id := session_id (session w) in
  store (world (handle (Some llm) ev w)) !! id
  = Some (history_messages id (store w)
          ++ [HumanMessage text; AIMessage (Str.concat chunks)])%list.
Proof.
  intros Hs Hn Hr id. subst id.
  rewrite handle_world, (script_submits (Some llm) ev w text Hs).
  rewrite chat_turn_store by done. rewrite Hr. apply lookup_insert_eq.
Qed.

(** The first turn of a session: one user message and one assistant
    message, in that order. *)
Lemma first_turn_store (llm : ChatGroq) (ev : Event) (w : World)
    (text : string) (chunks : list string) :
  submits ev w text ->
  ~ is_reset_command text ->
  llm_reply ev = Completed chunks ->
  history_messages (session_id (session w)) (store w) = [] ->
  store (world (handle (Some llm) ev w)) !! session_id (session w)
  = Some [HumanMessage text; AIMessage (Str.concat chunks)].
Proof.
  intros Hs Hn Hr Hh.
  rewrite (completed_turn_store llm ev w text chunks Hs Hn Hr), Hh.
  reflexivity.
Qed.

(** C1: a completed chat turn (a model is loaded, the text is not the
    reset command, the stream runs to its end) appends to the store entry
    of the current session identifier exactly one user message, the text,
    followed by exactly one assistant message, the reply; what the entry
    held before stays in front, the session identifier stays, and no other
    entry is written. *)
Theorem C1_completed_turn_appends_exchange (llm : ChatGroq) (ev : Event)
    (w : World) (text : string) (chunks : list string) :
  submits ev w text ->
  ~ is_reset_command text ->
  llm_reply ev = Completed chunks ->
  let id := session_id (session w) in
  let w' := world (handle (Some llm) ev w) in
  store w' !! id
  = Some (history_messages id (store w)
          ++ [HumanMessage text; AIMessage (Str.concat chunks)])%list
  /\ role_of (HumanMessage text) = user
  /\ role_of (AIMessage (Str.concat chunks)) = assistant
  /\ session_id (session w') = id
  /\ forall id', id' <> id -> store w' !! id' = store w !! id'.
Proof.
  intros Hs Hn Hr id w'. subst id w'.
  split; [by apply completed_turn_store|].
  split; [reflexivity|]. split; [reflexivity|]. split.
  - rewrite handle_world, (script_submits (Some llm) ev w text Hs).
    unfold chat_turn.
    destruct (String.eqb_spec (Str.strip (Str.lower text)) "forget everything")
      as [E|_]; [by destruct Hn|].
    cbn [world session]. by destruct (Str.truthy _).
  - intros id' Hne.
    eapply store_step_other; [apply handle_store_step | exact Hne].
Qed.

Lemma C1_witness :
  store (world (handle (Some char_llm)
                  (submit_event English "How are you?" (Completed ["Fine."]))
                  after_hi)) !! "chat_3f2a9c1e"
  = Some [HumanMessage "Hi"; AIMessage "Hello!";
          HumanMessage "How are you?"; AIMessage "Fine."].
Proof.
  apply (C1_completed_turn_appends_exchange char_llm
           (submit_event English "How are you?" (Completed ["Fine."]))
           after_hi "How are you?" ["Fine."]).
  - repeat split; discriminate.
  - intros H. vm_compute in H. discriminate H.
  - reflexivity.
Defined.

(** The reset phrase does not reach what the chain keeps: the request of
    the next turn still carries the earlier exchange. *)
Example request_after_reset_phrase :
  request (handle (Some char_llm)
             (submit_event English "Who am I?" (Completed ["?"]))
             (world (handle (Some char_llm)
                       (submit_event English "forget everything" (Completed []))
                       after_hi)))
  = Some [system_prompt English; HumanMessage "Hi"; AIMessage "Hello!";
          HumanMessage "Who am I?"].
Proof. by vm_compute. Qed.

(** ** Invariants of the reachable states *)

Lemma reachable_no_system (chatbot_chain : option ChatGroq) (w : World) :
  reachable chatbot_chain w -> no_system_stored (store w).
Proof.
  induction 1 as [u|w ev Hw IH].
  - intros id ms E. simpl in E. by rewrite lookup_empty in E.
  - eapply store_step_no_system; [apply handle_store_step | exact IH].
Qed.

Lemma script_request (chatbot_chain : option ChatGroq) (ev : Event) (w : World)
    (req : list BaseMessage) :
  request (script chatbot_chain ev w) = Some req ->
  language_select ev = language (session w)
  /\ exists llm text,
       chatbot_chain = Some llm
       /\ req = prompt (language_select ev)
                  (trimmer (get_num_tokens_from_messages llm)
                     (history_messages (session_id (session w)) (store w)
                      ++ [HumanMessage text]))%list.
Proof.
  unfold script, wipe_and_restart.
  case_bool_decide as Hl; [discriminate|].
  simpl in Hl.
  repeat case_match; try discriminate.
  intros Hreq. apply chat_turn_request in Hreq.
  split; [exact Hl|]. eauto.
Qed.

(** C7: in every reachable state no stored sequence holds a system
    message; a request to the model starts with the system message
    rendered from the language selected in that run, followed by trimmed
    messages none of which is a system message; a language change sends no
    request and leaves the stored history exactly as it is. *)
Theorem C7_system_message_not_stored (chatbot_chain : option ChatGroq)
    (w : World) :
  reachable chatbot_chain w ->
  no_system_stored (store w)
  /\ (forall ev req,
        request (handle chatbot_chain ev w) = Some req ->
        exists trimmed,
          req = system_prompt (language_select ev) :: trimmed
          /\ Forall (fun m => role_of m <> system) trimmed)
  /\ (forall ev,
        language_select ev <> language (session w) ->
        request (handle chatbot_chain ev w) = None
        /\ store (world (handle chatbot_chain ev w)) = store w).
Proof.
  intros Hw. pose proof (reachable_no_system _ _ Hw) as Hinv.
  split; [exact Hinv|]. split.
  - intros ev req Hreq. rewrite handle_request in Hreq.
    apply script_request in Hreq as (_ & llm & text & _ & ->).
    eexists. split; [reflexivity|].
    apply Forall_forall. intros m Hm.
    apply trim_messages_elem_of in Hm.
    pose proof (history_messages_no_system (session_id (session w)) _ Hinv)
      as HH.
    rewrite Forall_forall in HH.
    rewrite elem_of_app, list_elem_of_singleton in Hm.
    destruct Hm as [Hm| ->]; [by apply HH | discriminate].
  - intros ev Hl.
    rewrite handle_request, handle_world, script_restart by (by left).
    by cbn [wipe_and_restart request world store].
Qed.

Lemma C7_witness :
  no_system_stored (store after_hi)
  /\ store (world (handle (Some char_llm) (select_event Spanish UUID_B) after_hi))
     = store after_hi.
Proof.
  pose proof (C7_system_message_not_stored (Some char_llm) after_hi
                (reachable_handle _ _ _ (reachable_first_load _ UUID_A)))
    as (Hinv & _ & Hchange).
  split; [exact Hinv|].
  apply (Hchange (select_event Spanish UUID_B)). discriminate.
Defined.

(** ** Session identifiers *)

Lemma append_cancel_l (p a b : string) : p ++ a = p ++ b -> a = b.
Proof.
  induction p as [|c p IH]; simpl; [done|].
  intros [= H]. by apply IH.
Qed.

Lemma new_session_id_eq (u v : N) :
  new_session_id u = new_session_id v
  <-> Str.take 8 (Uuid.hex u) = Str.take 8 (Uuid.hex v).
Proof.
  unfold new_session_id. split; [apply append_cancel_l | by intros ->].
Qed.

(** An entry is not written while the session ids in use are other
    ones. *)
Lemma run_other_entry (chatbot_chain : option ChatGroq) (old : string)
    (evs : list Event) (w : World) :
  old ∉ session_id (session w) :: issued_ids chatbot_chain evs w ->
  store (run chatbot_chain evs w) !! old = store w !! old.
Proof.
  revert w. induction evs as [|ev evs IH]; intros w Hnot; [reflexivity|].
  cbn [run issued_ids] in *.
  rewrite IH.
  - eapply store_step_other; [apply handle_store_step|].
    intros ->. apply Hnot. left.
  - intros Hin. apply Hnot. by right.
Qed.

(** C5, as the code has it: a language change starts the session that
    [init_chat_session] makes for the new language: the display list is
    the welcome message, the identifier is "chat_" followed by the first
    eight hexadecimal digits of the UUID drawn, and nothing is sent to the
    model.  The new identifier is the identifier of another draw exactly
    when those eight digits agree. *)
Theorem C5_language_change_new_session (chatbot_chain : option ChatGroq)
    (ev : Event) (w : World) :
  language_select ev <> language (session w) ->
  let w' := world (handle chatbot_chain ev w) in
  session w' = init_chat_session (uuid4 ev) (language_select ev)
  /\ session_id (session w') = new_session_id (uuid4 ev)
  /\ messages (session w') = [welcome (language_select ev)]
  /\ request (handle chatbot_chain ev w) = None
  /\ (forall u,
        session_id (session w') = new_session_id u
        <-> Str.take 8 (Uuid.hex (uuid4 ev)) = Str.take 8 (Uuid.hex u)).
Proof.
  intros Hl w'.
  assert (E : w' = {| store := store w;
                      session := init_chat_session (uuid4 ev)
                                   (language_select ev) |}).
  { subst w'. rewrite handle_world, script_restart by (by left).
    reflexivity. }
  rewrite E. cbn [session init_chat_session session_id messages].
  split; [reflexivity|]. split; [reflexivity|]. split; [reflexivity|].
  split.
  - rewrite handle_request, script_restart by (by left). reflexivity.
  - intros u. apply new_session_id_eq.
Qed.

Lemma C5_witness :
  session_id (session (world (handle (Some char_llm)
                                (select_event Spanish UUID_B) after_hi)))
  = new_session_id UUID_B.
Proof.
  assert (Hl : language_select (select_event Spanish UUID_B)
               <> language (session after_hi)) by discriminate.
  exact (proj1 (proj2 (C5_language_change_new_session (Some char_llm)
                         (select_event Spanish UUID_B) after_hi Hl))).
Defined.

(** C5 as stated fails: the UUID drawn at a language change can share its
    first eight hexadecimal digits with the one drawn before; the new
    identifier is then the old one. *)
Lemma C5_identifier_reissued :
  language_select (select_event Spanish UUID_A') <> language (session after_hi)
  /\ UUID_A' <> UUID_A
  /\ session_id (session (world (handle (Some char_llm)
                                   (select_event Spanish UUID_A') after_hi)))
     = session_id (session after_hi).
Proof.
  split; [discriminate|]. split; [discriminate|]. by vm_compute.
Qed.

(** ** Further properties: the store, start-up and restarts *)

Lemma get_session_history_subseteq (id : string) (st : Store) :
  st ⊆ get_session_history id st.
Proof.
  unfold get_session_history.
  destruct (st !! id) eqn:E; [done|]. by apply insert_subseteq.
Qed.

(** X1: [get_session_history] never overwrites: every entry of the store
    is kept as it is, the only key it can add is the id asked for, bound
    to the empty history; asking twice is asking once. *)
Theorem get_session_history_extends (id : string) (st : Store) :
  st ⊆ get_session_history id st
  /\ dom (get_session_history id st) = {[id]} ∪ dom st
  /\ history_messages id (get_session_history id st) = history_messages id st
  /\ get_session_history id (get_session_history id st)
     = get_session_history id st.
Proof.
  split; [|split; [|split]].
  - apply get_session_history_subseteq.
  - unfold get_session_history.
    destruct (st !! id) eqn:E.
    + assert (Hin : id ∈ dom st) by (apply elem_of_dom; eauto).
      apply set_eq. intros x. rewrite elem_of_union, elem_of_singleton.
      split; [by right | by intros [->|?]].
    + by rewrite dom_insert_L.
  - apply history_messages_get.
  - apply get_session_history_idem.
Qed.

(** X2: the model is loaded exactly when the key is a non-empty string and
    the constructor returns a client; an error is shown exactly when no
    model is loaded, and an exception of the constructor is shown with its
    text. *)
Theorem load_model_cases (groq_api_key : option string)
    (ctor : string -> string + ChatGroq) :
  (forall model,
     (load_model groq_api_key ctor).2 = Some model
     <-> exists key, groq_api_key = Some key /\ key <> "" /\ ctor key = inr model)
  /\ ((load_model groq_api_key ctor).1 = []
      <-> is_Some (load_model groq_api_key ctor).2)
  /\ (forall key e,
        groq_api_key = Some key -> key <> "" -> ctor key = inl e ->
        load_model groq_api_key ctor
        = ([st_error main ("Error initializing GroQ model: " ++ e)], None)).
Proof.
  unfold load_model. split; [|split].
  - intros model. split.
    + destruct groq_api_key as [[|c key]|]; simpl; try discriminate.
      destruct (ctor (String c key)) eqn:E; simpl; [discriminate|].
      intros [= ->]. by exists (String c key).
    + intros (key & -> & Hk & E). destruct key; [done|]. simpl. by rewrite E.
  - destruct groq_api_key as [[|c key]|]; simpl;
      try (split; [discriminate | by intros [? [=]]]).
    destruct (ctor (String c key)); simpl;
      [split; [discriminate | by intros [? [=]]] | by split; eauto].
  - intros key e -> Hk E. destruct key; [done|]. simpl. by rewrite E.
Qed.

Lemma load_model_cases_witness :
  load_model (Some "gsk_k") (fun _ => inl "bad key")
  = ([st_error main "Error initializing GroQ model: bad key"], None).
Proof.
  apply (proj2 (proj2 (load_model_cases (Some "gsk_k") (fun _ => inl "bad key")))
           "gsk_k" "bad key"); [reflexivity | discriminate | reflexivity].
Defined.

Section RunFacts.

Variable chatbot_chain : option ChatGroq.
Implicit Types (ev : Event) (w : World).

(** What a restart leaves. *)
Lemma handle_restart ev w :
  language_select ev <> language (session w) \/ new_chat_button ev = true ->
  handle chatbot_chain ev w
  = {| world := {| store := store w;
                   session := init_chat_session (uuid4 ev) (language_select ev) |};
       shown := page (init_chat_session (uuid4 ev) (language_select ev));
       request := None;
       control := Finished |}.
Proof.
  intros H. unfold handle. rewrite (script_restart _ _ _ H).
  cbn [wipe_and_restart control world request language].
  by rewrite script_quiet.
Qed.

Lemma script_empty_text ev w :
  language_select ev = language (session w) ->
  new_chat_button ev = false ->
  chat_input ev = Some "" ->
  script chatbot_chain ev w
  = {| world := w; shown := page (session w);
       request := None; control := Finished |}.
Proof.
  intros Hl Hb Hc. unfold script. rewrite Hl, Hb, Hc.
  rewrite bool_decide_eq_false_2 by (simpl; auto).
  simpl. by rewrite session_eta, world_eta.
Qed.

End RunFacts.

(** Every run loads the model again: without a key each run shows the
    error of line 20 before anything else, and is otherwise the run of the
    script without a chain. *)
Lemma whole_run_without_key (groq_api_key : option string)
    (ctor : string -> string + ChatGroq) (ev : Event) (w : World) :
  key_absent groq_api_key ->
  shown (whole_run groq_api_key ctor ev w)
  = st_error main
      "GROQ_API_KEY not found. Please set it in your .env file or Streamlit secrets."
    :: shown (script None ev w)
  /\ world (whole_run groq_api_key ctor ev w) = world (script None ev w)
  /\ request (whole_run groq_api_key ctor ev w) = None.
Proof.
  intros Habs. unfold whole_run.
  assert (E : load_model groq_api_key ctor
              = ([st_error main
                    "GROQ_API_KEY not found. Please set it in your .env file or Streamlit secrets."],
                 None)).
  { destruct groq_api_key as [key|]; [|reflexivity].
    simpl in Habs. subst key. reflexivity. }
  rewrite E. cbn [fst snd shown world request app].
  split; [reflexivity|]. split; [reflexivity|].
  unfold script, wipe_and_restart.
  repeat (case_bool_decide || case_match); reflexivity.
Qed.

(** The display list after a chat turn that is not the reset command. *)
Lemma chat_turn_messages llm ev text above run_store st ss :
  ~ is_reset_command text ->
  messages (session (world (chat_turn llm ev text above run_store st ss)))
  = (messages ss ++ {| role := "user"; content := text |}
       :: shown_reply (Str.concat (reply_chunks (llm_reply ev))))%list.
Proof.
  intros Hn. unfold chat_turn, shown_reply.
  destruct (String.eqb_spec (Str.strip (Str.lower text)) "forget everything")
    as [E|_]; [by destruct Hn|].
  cbn [world session].
  destruct (Str.truthy _); cbn [append_message messages].
  - by rewrite <- app_assoc.
  - reflexivity.
Qed.

(** X3: a restart (the language was changed or "Start New Chat" was
    pressed) starts the session [init_chat_session] makes for the selected
    language, so the display list is the welcome message alone, and sends
    nothing to the model, whatever text was submitted in the same run.
    The history that the chain keeps is left as it is: the [clear] of
    lines 119 and 127 acts on the dictionary of the run. *)
Theorem restart_ignores_text (chatbot_chain : option ChatGroq) (ev : Event)
    (w : World) :
  language_select ev <> language (session w) \/ new_chat_button ev = true ->
  let o := handle chatbot_chain ev w in
  session (world o) = init_chat_session (uuid4 ev) (language_select ev)
  /\ messages (session (world o)) = [welcome (language_select ev)]
  /\ store (world o) = store w
  /\ request o = None
  /\ control o = Finished.
Proof.
  intros H o. subst o. rewrite (handle_restart _ _ _ H). by cbn.
Qed.

Lemma restart_ignores_text_witness :
  request (handle (Some char_llm)
             {| language_select := English; new_chat_button := true;
                chat_input := Some "Hi"; uuid4 := UUID_B;
                llm_reply := Completed ["Hello"] |}
             after_hi) = None.
Proof.
  apply (restart_ignores_text (Some char_llm)
           {| language_select := English; new_chat_button := true;
              chat_input := Some "Hi"; uuid4 := UUID_B;
              llm_reply := Completed ["Hello"] |} after_hi).
  by right.
Defined.

(** X4: the run that [st.rerun()] starts only redraws: after any run, the
    rerun leaves the state as it is, sends nothing to the model and ends
    normally, so an event never takes more than two runs. *)
Theorem rerun_settles (chatbot_chain : option ChatGroq) (ev : Event) (w : World) :
  let o := script chatbot_chain ev w in
  script chatbot_chain (rerun_event ev) (world o)
  = {| world := world o; shown := page (session (world o));
       request := None; control := Finished |}
  /\ control (handle chatbot_chain ev w) <> Rerun
  /\ world (handle chatbot_chain ev w) = world o.
Proof.
  intros o. subst o. split; [|split].
  - apply script_quiet; [|reflexivity..].
    simpl. by rewrite script_language.
  - apply handle_control.
  - apply handle_world.
Qed.

(** ** Further properties: the session state and the outcome of a turn *)

Section SessionInvariant.

Variable chatbot_chain : option ChatGroq.

Lemma init_chat_session_ok u lang : session_ok (init_chat_session u lang).
Proof.
  split; [done|]. split; [|by exists u].
  apply Forall_singleton. by right.
Qed.

Lemma append_message_ok r c ss :
  r = "user" \/ r = "assistant" ->
  session_ok ss -> session_ok (append_message r c ss).
Proof.
  intros Hr (Hh & Hroles & Hid). split; [|split]; cbn.
  - destruct (messages ss); [discriminate | exact Hh].
  - apply Forall_app. split; [done|]. by apply Forall_singleton.
  - exact Hid.
Qed.

Lemma chat_turn_ok llm ev text above run_store st ss :
  session_ok ss ->
  session_ok (session (world (chat_turn llm ev text above run_store st ss))).
Proof.
  intros Hss. unfold chat_turn.
  destruct (String.eqb _ _); cbn [world session].
  - by repeat (apply append_message_ok; [auto|]).
  - destruct (Str.truthy _);
      by repeat (apply append_message_ok; [auto|]).
Qed.

Lemma script_ok ev w :
  session_ok (session w) ->
  session_ok (session (world (script chatbot_chain ev w))).
Proof.
  intros Hss.
  destruct (decide (language_select ev = language (session w))) as [Hl|Hl].
  - assert (E : {| session_id := session_id (session w);
                   language := language_select ev;
                   messages := messages (session w) |} = session w).
    { rewrite Hl. apply session_eta. }
    unfold script. rewrite E.
    rewrite bool_decide_eq_false_2 by (simpl; auto).
    destruct (new_chat_button ev); [apply init_chat_session_ok|].
    destruct (chat_input ev) as [text|]; [|done].
    destruct (negb (Str.truthy text)); [done|].
    destruct chatbot_chain as [llm|]; [|done].
    by apply chat_turn_ok.
  - rewrite script_restart by (by left). apply init_chat_session_ok.
Qed.

Lemma reachable_session_ok w :
  reachable chatbot_chain w -> session_ok (session w).
Proof.
  induction 1 as [u|w ev Hw IH].
  - apply init_chat_session_ok.
  - rewrite handle_world. by apply script_ok.
Qed.

End SessionInvariant.

(** X5: in every reachable state the display list starts with the welcome
    message written for the current language, every entry has the role
    "user" or "assistant", and the session identifier is one that
    [init_chat_session] made from a UUID. *)
Theorem reachable_session_invariant (chatbot_chain : option ChatGroq)
    (w : World) :
  reachable chatbot_chain w ->
  head (messages (session w)) = Some (welcome (language (session w)))
  /\ Forall valid_role (messages (session w))
  /\ exists u, session_id (session w) = new_session_id u.
Proof. apply reachable_session_ok. Qed.

Lemma reachable_session_invariant_witness :
  head (messages (session after_hi)) = Some (welcome English).
Proof.
  apply (reachable_session_invariant (Some char_llm) after_hi).
  exact (reachable_handle _ _ _ (reachable_first_load _ UUID_A)).
Defined.

(** X6: a turn whose stream raises stores nothing: the history of every id
    reads as before (the entry of the current id is at most created,
    empty).  The display list still gains the user's text and, when some
    chunks had arrived, the partial reply; the bubble shows the fixed
    error text and then the exception. *)
Theorem failed_turn_stores_nothing (llm : ChatGroq) (ev : Event) (w : World)
    (text : string) (chunks : list string) (e : string) :
  submits ev w text ->
  ~ is_reset_command text ->
  llm_reply ev = Raised chunks e ->
  let o := handle (Some llm) ev w in
  (forall id, history_messages id (store (world o))
              = history_messages id (store w))
  /\ store w ⊆ store (world o)
  /\ messages (session (world o))
     = (messages (session w) ++ {| role := "user"; content := text |}
          :: shown_reply (Str.concat chunks))%list
  /\ (exists above,
        shown o
        = (above ++
           [st_markdown (chat_message "assistant")
              "An error occurred. Please try again or check the API key.";
            st_error (chat_message "assistant") e])%list)
  /\ control o = Finished.
Proof.
  intros Hs Hn Hr o.
  assert (Eo : o = chat_turn llm ev text (page (session w)) ∅ (store w)
                     (session w)).
  { subst o. unfold handle. rewrite (script_submits (Some llm) ev w text Hs).
    unfold chat_turn at 1.
    destruct (String.eqb_spec (Str.strip (Str.lower text)) "forget everything")
      as [E|_]; [by destruct Hn|]. reflexivity. }
  rewrite Eo. rewrite chat_turn_messages by done.
  rewrite chat_turn_store by done. rewrite Hr. cbn [reply_chunks].
  split; [|split; [|split; [|split]]].
  - intros id. destruct (decide (id = session_id (session w))) as [->|Hne].
    + apply history_messages_get.
    + unfold history_messages.
      by rewrite get_session_history_other.
  - apply get_session_history_subseteq.
  - reflexivity.
  - unfold chat_turn.
    destruct (String.eqb_spec (Str.strip (Str.lower text)) "forget everything")
      as [E|_]; [by destruct Hn|].
    cbn [shown]. rewrite Hr. eauto.
  - unfold chat_turn.
    destruct (String.eqb_spec (Str.strip (Str.lower text)) "forget everything")
      as [E|_]; [by destruct Hn|]. reflexivity.
Qed.

Lemma failed_turn_stores_nothing_witness :
  messages (session (world (handle (Some char_llm)
     (submit_event English "How are you?" (Raised ["I am"] "timeout")) after_hi)))
  = (messages (session after_hi)
     ++ [{| role := "user"; content := "How are you?" |};
         {| role := "assistant"; content := "I am" |}])%list.
Proof.
  apply (failed_turn_stores_nothing char_llm
           (submit_event English "How are you?" (Raised ["I am"] "timeout"))
           after_hi "How are you?" ["I am"] "timeout").
  - repeat split; discriminate.
  - intros H. vm_compute in H. discriminate H.
  - reflexivity.
Defined.

(** X7: after a completed turn the reply is the last stored message even
    when it is empty, but an empty reply is not added to the display list
    (line 195): the display list gains the user's text and the reply only
    if the reply is a non-empty string. *)
Theorem completed_turn_display (llm : ChatGroq) (ev : Event) (w : World)
    (text : string) (chunks : list string) :
  submits ev w text ->
  ~ is_reset_command text ->
  llm_reply ev = Completed chunks ->
  let o := handle (Some llm) ev w in
  messages (session (world o))
  = (messages (session w) ++ {| role := "user"; content := text |}
       :: shown_reply (Str.concat chunks))%list
  /\ last (history_messages (session_id (session w)) (store (world o)))
     = Some (AIMessage (Str.concat chunks))
  /\ last (shown o)
     = Some (st_markdown (chat_message "assistant") (Str.concat chunks)).
Proof.
  intros Hs Hn Hr o.
  assert (Eo : o = chat_turn llm ev text (page (session w)) ∅ (store w)
                     (session w)).
  { subst o. unfold handle. rewrite (script_submits (Some llm) ev w text Hs).
    unfold chat_turn at 1.
    destruct (String.eqb_spec (Str.strip (Str.lower text)) "forget everything")
      as [E|_]; [by destruct Hn|]. reflexivity. }
  rewrite Eo. rewrite chat_turn_messages by done.
  rewrite chat_turn_store by done. rewrite Hr. cbn [reply_chunks].
  split; [reflexivity|]. split.
  - unfold history_messages at 1. rewrite lookup_insert_eq.
    change (default [] (Some ?x)) with x.
    by rewrite last_app.
  - unfold chat_turn.
    destruct (String.eqb_spec (Str.strip (Str.lower text)) "forget everything")
      as [E|_]; [by destruct Hn|].
    cbn [shown]. rewrite Hr. apply last_snoc.
Qed.

Lemma completed_turn_display_witness :
  messages (session (world (handle (Some char_llm)
     (submit_event English "Say nothing" (Completed [""])) after_hi)))
  = (messages (session after_hi)
     ++ [{| role := "user"; content := "Say nothing" |}])%list.
Proof.
  apply (completed_turn_display char_llm
           (submit_event English "Say nothing" (Completed [""]))
           after_hi "Say nothing" [""]).
  - repeat split; discriminate.
  - intros H. vm_compute in H. discriminate H.
  - reflexivity.
Defined.

(** X8: the first completed turn of a session, when nothing is stored
    under its id yet, stores the user's message and the reply, in that
    order, and sends the model the system message followed by the trimmed
    one-message history. *)
Theorem first_turn_exchange (llm : ChatGroq) (ev : Event) (w : World)
    (text : string) (chunks : list string) :
  submits ev w text ->
  ~ is_reset_command text ->
  llm_reply ev = Completed chunks ->
  history_messages (session_id (session w)) (store w) = [] ->
  let o := handle (Some llm) ev w in
  store (world o) !! session_id (session w)
  = Some [HumanMessage text; AIMessage (Str.concat chunks)]
  /\ request o
     = Some (system_prompt (language (session w))
               :: trimmer (get_num_tokens_from_messages llm) [HumanMessage text]).
Proof.
  intros Hs Hn Hr Hh o. subst o. split.
  - rewrite (completed_turn_store llm ev w text chunks Hs Hn Hr), Hh.
    reflexivity.
  - rewrite handle_request, (script_submits (Some llm) ev w text Hs).
    destruct (request (chat_turn llm ev text (page (session w)) ∅ (store w)
                         (session w))) as [req|] eqn:E.
    + rewrite (chat_turn_request _ _ _ _ _ _ _ E), Hh. reflexivity.
    + revert E. unfold chat_turn.
      destruct (String.eqb_spec (Str.strip (Str.lower text)) "forget everything")
        as [E'|_]; [by destruct Hn | discriminate].
Qed.

Lemma first_turn_exchange_witness :
  store (world (handle (Some char_llm)
                  (submit_event English "Hi" (Completed ["Hel"; "lo!"]))
                  (first_load UUID_A))) !! "chat_3f2a9c1e"
  = Some [HumanMessage "Hi"; AIMessage "Hello!"].
Proof.
  apply (first_turn_exchange char_llm
           (submit_event English "Hi" (Completed ["Hel"; "lo!"]))
           (first_load UUID_A) "Hi" ["Hel"; "lo!"]).
  - repeat split; discriminate.
  - intros H. vm_compute in H. discriminate H.
  - reflexivity.
  - reflexivity.
Defined.

(** ** Further properties: the store along runs and the requests *)

Lemma store_step_dom id (st st' : Store) :
  store_step id st st' -> dom st ⊆ dom st'.
Proof.
  assert (Hget : dom st ⊆ dom (get_session_history id st)).
  { apply subseteq_dom, get_session_history_subseteq. }
  intros H. destruct H; [done|done|].
  etrans; [exact Hget | apply dom_insert_subseteq].
Qed.

(** X9: no run removes a key from the store, and a run writes to the entry
    of the session id in use only: along any sequence of events, an entry
    whose id is not one of the ids in use is left exactly as it was. *)
Theorem run_keeps_other_histories (chatbot_chain : option ChatGroq)
    (evs : list Event) (w : World) :
  dom (store w) ⊆ dom (store (run chatbot_chain evs w))
  /\ forall id,
       id ∉ session_id (session w) :: issued_ids chatbot_chain evs w ->
       store (run chatbot_chain evs w) !! id = store w !! id.
Proof.
  split; [|intros id; apply run_other_entry].
  revert w. induction evs as [|ev evs IH]; intros w; [done|].
  cbn [run]. etrans; [|apply IH].
  eapply store_step_dom, handle_store_step.
Qed.

Lemma run_keeps_other_histories_witness :
  store (run (Some char_llm)
           [submit_event English "Hi" (Completed ["Hello!"]);
            select_event Spanish UUID_B;
            submit_event Spanish "Hola" (Completed ["Buenas"])]
           {| store := {[ "chat_0badcafe" := [HumanMessage "other tab"] ]};
              session := init_chat_session UUID_A English |})
    !! "chat_0badcafe"
  = Some [HumanMessage "other tab"].
Proof.
  rewrite (proj2 (run_keeps_other_histories (Some char_llm)
                    [submit_event English "Hi" (Completed ["Hello!"]);
                     select_event Spanish UUID_B;
                     submit_event Spanish "Hola" (Completed ["Buenas"])]
                    {| store := {[ "chat_0badcafe" := [HumanMessage "other tab"] ]};
                       session := init_chat_session UUID_A English |})).
  - reflexivity.
  - intros Hin. vm_compute in Hin.
    repeat (apply elem_of_cons in Hin as [Hin|Hin]; [discriminate Hin|]).
    by apply elem_of_nil in Hin.
Defined.

(** X10: a request goes to the model exactly when a model is loaded and the
    run submits a non-empty text that is not the reset command, with the
    language unchanged and the button not pressed. *)
Theorem model_called_iff (chatbot_chain : option ChatGroq) (ev : Event)
    (w : World) :
  is_Some (request (handle chatbot_chain ev w))
  <-> exists llm text,
        chatbot_chain = Some llm /\ submits ev w text
        /\ ~ is_reset_command text.
Proof.
  rewrite handle_request. split.
  - intros [req Hreq].
    destruct (script_request _ _ _ _ Hreq) as (Hl & _).
    revert Hreq. unfold script.
    rewrite bool_decide_eq_false_2 by (simpl; auto).
    destruct (new_chat_button ev) eqn:Hb; [discriminate|].
    destruct (chat_input ev) as [text|] eqn:Hc; [|discriminate].
    destruct (Str.truthy text) eqn:Ht; [|discriminate]. cbn [negb].
    destruct chatbot_chain as [llm|]; [|discriminate].
    unfold chat_turn.
    destruct (String.eqb_spec (Str.strip (Str.lower text)) "forget everything")
      as [E|E]; [discriminate|].
    intros _. exists llm, text. split; [done|]. split; [|exact E].
    repeat split; try done. by intros ->.
  - intros (llm & text & -> & Hs & Hn).
    rewrite (script_submits (Some llm) ev w text Hs). unfold chat_turn.
    destruct (String.eqb_spec (Str.strip (Str.lower text)) "forget everything")
      as [E|_]; [by destruct Hn|]. by eexists.
Qed.







(** ** Further properties: the trimmer *)

Section TrimmerMore.

Variable token_counter : list BaseMessage -> nat.
Implicit Types (l r : list BaseMessage) (n idx budget : nat).

(** When the whole list fits, the whole list is the fitting prefix. *)
Lemma fitting_prefix_all budget r :
  token_counter r ≤ budget ->
  fitting_prefix token_counter budget r (length r) = length r.
Proof.
  intros Hfit. destruct (length r) as [|n] eqn:E; [done|].
  cbn [fitting_prefix]. rewrite <- E, firstn_all.
  by apply Nat.leb_le in Hfit as ->.
Qed.

Lemma end_on_human_stays r k c :
  r !! k = Some (HumanMessage c) -> end_on_human r (S k) = S k.
Proof. intros H. cbn [end_on_human]. by rewrite H. Qed.

Lemma end_on_human_none r idx :
  Forall (fun m => is_human m = false) r -> end_on_human r idx = 0.
Proof.
  intros Hr. induction idx as [|k IH]; [done|].
  cbn [end_on_human].
  destruct (r !! k) as [m|] eqn:E; [|exact IH].
  rewrite Forall_forall in Hr.
  assert (Hm : is_human m = false).
  { apply Hr. apply list_elem_of_lookup. eauto. }
  by destruct m.
Qed.

Lemma window_all budget l :
  token_counter (reverse l) ≤ budget ->
  l = [] \/ (exists c, head l = Some (HumanMessage c)) ->
  reverse (first_max_tokens token_counter budget (reverse l)) = l.
Proof.
  intros Hfit Hh. unfold first_max_tokens.
  rewrite fitting_prefix_all by done.
  destruct Hh as [->|[c Hc]]; [done|].
  assert (Hlen : length (reverse l) = S (pred (length l))).
  { rewrite length_reverse. destruct l; [discriminate | done]. }
  rewrite Hlen, (end_on_human_stays _ _ c).
  - rewrite <- Hlen, firstn_all. apply reverse_involutive.
  - rewrite <- (length_reverse l), <- last_lookup, last_reverse. exact Hc.
Qed.

Lemma window_none budget l :
  Forall (fun m => is_human m = false) l ->
  reverse (first_max_tokens token_counter budget (reverse l)) = [].
Proof.
  intros Hl. unfold first_max_tokens.
  rewrite end_on_human_none; [done|].
  apply Forall_forall. intros m Hm. rewrite Forall_forall in Hl.
  apply Hl. by apply elem_of_reverse.
Qed.

End TrimmerMore.

(** X12: a history that fits is passed on unchanged: when the messages
    after the leading system message start with a user message (or there
    are none) and the counter puts them, in the reversed order in which
    the trimmer counts them, within the budget left for them, the output
    of the trimmer is its input. *)
Theorem trimmer_keeps_short_history (token_counter : list BaseMessage -> nat)
    (max_tokens : nat) (l : list BaseMessage) :
  token_counter (reverse (after_system l))
    ≤ remaining_budget token_counter max_tokens l ->
  after_system l = [] \/ (exists c, head (after_system l) = Some (HumanMessage c)) ->
  trim_messages token_counter max_tokens l = l.
Proof.
  intros Hfit Hh. destruct l as [|m rest]; [done|].
  destruct m as [c|c|c];
    cbn [trim_messages after_system remaining_budget] in *.
  - f_equal. by apply window_all.
  - by apply window_all.
  - destruct Hh as [Hh|[c' Hh]]; discriminate Hh.
Qed.

Lemma trimmer_keeps_short_history_witness :
  trim_messages char_counter 200
    [SystemMessage "Be brief."; HumanMessage "Hi"; AIMessage "Hello!";
     HumanMessage "How are you?"]
  = [SystemMessage "Be brief."; HumanMessage "Hi"; AIMessage "Hello!";
     HumanMessage "How are you?"].
Proof.
  apply (trimmer_keeps_short_history char_counter 200
           [SystemMessage "Be brief."; HumanMessage "Hi"; AIMessage "Hello!";
            HumanMessage "How are you?"]).
  - vm_compute. lia.
  - right. by exists "Hi".
Defined.

(** X13: with [start_on="human"], a history without any user message after
    the leading system message is trimmed to that system message alone
    (to nothing when there is none), whatever the counter and the budget
    are. *)
Theorem trimmer_without_user_message (token_counter : list BaseMessage -> nat)
    (max_tokens : nat) (l : list BaseMessage) :
  Forall (fun m => is_human m = false) (after_system l) ->
  trim_messages token_counter max_tokens l = leading_system l.
Proof.
  intros Hl. destruct l as [|m rest]; [done|].
  destruct m as [c|c|c]; cbn [trim_messages after_system leading_system] in *.
  - f_equal. by apply window_none.
  - by apply window_none.
  - by apply window_none.
Qed.

Lemma trimmer_without_user_message_witness :
  trim_messages char_counter 200
    [SystemMessage "Be brief."; AIMessage "Hello!"; AIMessage "Anyone?"]
  = [SystemMessage "Be brief."].
Proof.
  apply (trimmer_without_user_message char_counter 200
           [SystemMessage "Be brief."; AIMessage "Hello!"; AIMessage "Anyone?"]).
  by repeat constructor.
Defined.

Lemma window_within_budget (token_counter : list BaseMessage -> nat)
    (f : BaseMessage -> nat) (budget : nat) (r : list BaseMessage) :
  (forall l, token_counter l = sum_list_with f l) ->
  token_counter (reverse (first_max_tokens token_counter budget r)) ≤ budget.
Proof.
  intros Hadd. unfold first_max_tokens.
  set (idx := fitting_prefix token_counter budget r (length r)).
  set (k := end_on_human r idx).
  assert (Hk : k ≤ idx) by apply end_on_human_le.
  rewrite Hadd, sum_list_with_reverse.
  destruct (fitting_prefix_fits token_counter budget r (length r)) as [E|E];
    fold idx in E.
  - assert (k = 0) as -> by lia. simpl. lia.
  - rewrite Hadd in E.
    replace idx with (k + (idx - k)) in E by lia.
    rewrite <- take_take_drop, sum_list_with_app in E. lia.
Qed.

(** X14: for a counter that adds up a count per message, the output of the
    trimmer is within the budget whenever the leading system message
    alone is (or there is none). *)
Theorem trimmer_within_budget (token_counter : list BaseMessage -> nat)
    (max_tokens : nat) (l : list BaseMessage) :
  additive_counter token_counter ->
  token_counter (leading_system l) ≤ max_tokens ->
  token_counter (trim_messages token_counter max_tokens l) ≤ max_tokens.
Proof.
  intros [f Hadd] Hsys. destruct l as [|m rest].
  - simpl. rewrite Hadd. simpl. lia.
  - destruct m as [c|c|c]; cbn [trim_messages leading_system] in *;
      try by eapply window_within_budget.
    pose proof (window_within_budget token_counter f
                  (max_tokens - token_counter [SystemMessage c])
                  (reverse rest) Hadd) as Hw.
    set (kept := reverse _) in *.
    assert (E : token_counter (SystemMessage c :: kept)
                = token_counter [SystemMessage c] + token_counter kept).
    { rewrite !Hadd. simpl. lia. }
    lia.
Qed.

Lemma trimmer_within_budget_witness :
  char_counter (trim_messages char_counter 12
                  [SystemMessage "Be brief."; HumanMessage "Hi";
                   AIMessage "Hello!"; HumanMessage "Yo"]) ≤ 12.
Proof.
  apply (trimmer_within_budget char_counter 12
           [SystemMessage "Be brief."; HumanMessage "Hi";
            AIMessage "Hello!"; HumanMessage "Yo"]).
  - exists (fun m => String.length (message_content m)).
    intros l. unfold char_counter. by rewrite sum_list_with_foldr.
  - vm_compute. lia.
Defined.

(** ** Further properties: the reset phrase *)

Section TextFacts.

Implicit Types (a b s t : string) (c : ascii).

Lemma lower_app a b : Str.lower (a ++ b) = Str.lower a ++ Str.lower b.
Proof. induction a as [|c a IH]; simpl; [done | by rewrite IH]. Qed.

Lemma lower_app_inv t a b :
  Str.lower t = a ++ b ->
  exists t1 t2, t = t1 ++ t2 /\ Str.lower t1 = a /\ Str.lower t2 = b.
Proof.
  revert t. induction a as [|c a IH]; intros t H.
  - by exists "", t.
  - destruct t as [|d t]; [discriminate|].
    simpl in H. injection H as Hc Ht.
    destruct (IH t Ht) as (t1 & t2 & -> & <- & <-).
    exists (String d t1), t2. simpl. by rewrite Hc.
Qed.

Lemma isspace_lower_char c : Str.isspace (Str.lower_char c) = Str.isspace c.
Proof. destruct c as [[] [] [] [] [] [] [] []]; by vm_compute. Qed.

Lemma lower_char_space c : Str.isspace c = true -> Str.lower_char c = c.
Proof. destruct c as [[] [] [] [] [] [] [] []]; vm_compute; congruence. Qed.

Lemma all_space_lower s : all_space (Str.lower s) = all_space s.
Proof.
  induction s as [|c s IH]; simpl; [done|].
  by rewrite isspace_lower_char, IH.
Qed.

Lemma lower_all_space s : all_space s = true -> Str.lower s = s.
Proof.
  induction s as [|c s IH]; simpl; [done|].
  intros [Hc Hs]%andb_prop. by rewrite lower_char_space, IH.
Qed.

Lemma lstrip_space_app a b : all_space a = true -> Str.lstrip (a ++ b) = Str.lstrip b.
Proof.
  induction a as [|c a IH]; simpl; [done|].
  intros [Hc Hs]%andb_prop. rewrite Hc. by apply IH.
Qed.

Lemma rstrip_all_space a : all_space a = true -> Str.rstrip a = "".
Proof.
  induction a as [|c a IH]; simpl; [done|].
  intros [Hc Hs]%andb_prop. by rewrite IH, Hc.
Qed.

Lemma rstrip_app_space b a : all_space a = true -> Str.rstrip (b ++ a) = Str.rstrip b.
Proof.
  intros Ha. induction b as [|c b IH]; simpl.
  - by rewrite rstrip_all_space.
  - by rewrite IH.
Qed.

(** What [lstrip] removes is white space, and only from the front. *)
Lemma lstrip_split s :
  exists a, s = a ++ Str.lstrip s /\ all_space a = true.
Proof.
  induction s as [|c s (a & Hs & Ha)]; [by exists ""|].
  simpl. destruct (Str.isspace c) eqn:E.
  - exists (String c a). simpl. rewrite E, Ha. split; [|done].
    change (String c s = String c (a ++ Str.lstrip s)). by rewrite <- Hs.
  - by exists "".
Qed.

Lemma rstrip_split s :
  exists b, s = Str.rstrip s ++ b /\ all_space b = true.
Proof.
  induction s as [|c s (b & Hs & Hb)]; [by exists ""|].
  simpl. destruct (Str.rstrip s) as [|d r] eqn:E.
  - change (s = b) in Hs. subst b.
    destruct (Str.isspace c) eqn:Ec.
    + exists (String c s). simpl. by rewrite Ec, Hb.
    + by exists s.
  - exists b. split; [|done].
    change (String c s = String c (String d r ++ b)). by rewrite <- Hs.
Qed.

Lemma strip_split s :
  exists a b, s = a ++ Str.strip s ++ b /\ all_space a = true /\ all_space b = true.
Proof.
  destruct (lstrip_split s) as (a & Hs & Ha).
  destruct (rstrip_split (Str.lstrip s)) as (b & Hl & Hb).
  exists a, b. unfold Str.strip. by rewrite <- Hl.
Qed.

End TextFacts.

(** X15: line 152 takes a submitted text as the reset command exactly when
    it is the phrase "forget everything" in any letter case with nothing
    but white space before and after it. *)
Theorem reset_phrase_any_case_and_padding (text : string) :
  is_reset_command text
  <-> exists pre body post,
        text = pre ++ body ++ post
        /\ all_space pre = true /\ all_space post = true
        /\ Str.lower body = "forget everything".
Proof.
  unfold is_reset_command. split.
  - intros H.
    destruct (strip_split (Str.lower text)) as (a & b & Ht & Ha & Hb).
    rewrite H in Ht.
    apply lower_app_inv in Ht as (pre & rest & -> & Hpre & Hrest).
    apply lower_app_inv in Hrest as (body & post & -> & Hbody & Hpost).
    exists pre, body, post. split; [done|].
    rewrite <- (all_space_lower pre), <- (all_space_lower post), Hpre, Hpost.
    done.
  - intros (pre & body & post & -> & Hpre & Hpost & Hbody).
    rewrite !lower_app, Hbody, (lower_all_space pre), (lower_all_space post)
      by done.
    unfold Str.strip. rewrite lstrip_space_app by done.
    change (Str.lstrip ("forget everything" ++ post))
      with ("forget everything" ++ post).
    by rewrite rstrip_app_space.
Qed.

(** ** Further properties: session identifiers *)

Section HexFacts.

Implicit Types (a b s : string) (c d : ascii) (v w : N) (n m : nat).

Lemma append_cons c a b : String c a ++ b = String c (a ++ b).
Proof. reflexivity. Qed.

Lemma append_nil_l a : "" ++ a = a.
Proof. reflexivity. Qed.

Lemma length_append a b :
  String.length (a ++ b) = String.length a + String.length b.
Proof.
  induction a as [|c a IH]; [done|].
  rewrite append_cons. simpl. by rewrite IH.
Qed.

Lemma append_assoc a b s : (a ++ b) ++ s = a ++ (b ++ s).
Proof.
  induction a as [|c a IH]; [done|].
  rewrite !append_cons. by rewrite IH.
Qed.

Lemma all_hex_append a b : all_hex (a ++ b) = all_hex a && all_hex b.
Proof.
  induction a as [|c a IH]; [done|].
  rewrite append_cons. simpl. by rewrite IH, andb_assoc.
Qed.

Lemma take_append a b : Str.take (String.length a) (a ++ b) = a.
Proof.
  unfold Str.take. induction a as [|c a IH].
  - by destruct b.
  - rewrite append_cons. simpl. by rewrite IH.
Qed.

Lemma snoc_inj a b c d :
  a ++ String c "" = b ++ String d "" -> a = b /\ c = d.
Proof.
  revert b. induction a as [|x a IH]; intros [|y b] H.
  - by injection H.
  - rewrite append_nil_l, append_cons in H. injection H as _ H.
    by destruct b.
  - rewrite append_nil_l, append_cons in H. injection H as _ H.
    by destruct a.
  - rewrite !append_cons in H. injection H as -> H.
    by destruct (IH _ H) as [-> ->].
Qed.

Lemma code_hex_digit v :
  (v < 16)%N ->
  Str.code (Uuid.hex_digit v) = (if (v <? 10)%N then 48 + v else 87 + v)%N.
Proof.
  intros Hv. unfold Uuid.hex_digit, Str.code.
  destruct (v <? 10)%N; apply N_ascii_embedding; lia.
Qed.

Lemma hex_digit_inj v w :
  (v < 16)%N -> (w < 16)%N -> Uuid.hex_digit v = Uuid.hex_digit w -> v = w.
Proof.
  intros Hv Hw H. apply (f_equal Str.code) in H.
  rewrite !code_hex_digit in H by done.
  destruct (N.ltb_spec v 10), (N.ltb_spec w 10); lia.
Qed.

Lemma hex_digit_is_hex v : (v < 16)%N -> is_hex_digit (Uuid.hex_digit v) = true.
Proof.
  intros Hv. unfold is_hex_digit. rewrite code_hex_digit by done.
  destruct (N.ltb_spec v 10).
  - apply orb_true_iff. left. apply andb_true_iff. split; apply N.leb_le; lia.
  - apply orb_true_iff. right. apply andb_true_iff. split; apply N.leb_le; lia.
Qed.

Lemma length_hex_of n v : String.length (Uuid.hex_of n v) = n.
Proof.
  revert v. induction n as [|n IH]; intros v; [done|].
  cbn [Uuid.hex_of]. rewrite length_append, IH. simpl. lia.
Qed.

Lemma all_hex_hex_of n v : all_hex (Uuid.hex_of n v) = true.
Proof.
  revert v. induction n as [|n IH]; intros v; [done|].
  cbn [Uuid.hex_of]. rewrite all_hex_append, IH. simpl.
  rewrite hex_digit_is_hex; [done|]. apply N.mod_lt. lia.
Qed.

(** The digits of a number: the high ones, then the [m] low ones. *)
Lemma hex_of_add n m v :
  Uuid.hex_of (n + m) v = Uuid.hex_of n (v / 16 ^ N.of_nat m)%N ++ Uuid.hex_of m v.
Proof.
  revert v. induction m as [|m IH]; intros v.
  - rewrite Nat.add_0_r. simpl. rewrite N.div_1_r.
    induction (Uuid.hex_of n v) as [|c s IHs]; [done|].
    rewrite append_cons. by rewrite <- IHs.
  - rewrite Nat.add_succ_r. cbn [Uuid.hex_of].
    rewrite IH, append_assoc. do 2 f_equal.
    rewrite Nat2N.inj_succ, N.pow_succ_r', N.Div0.div_div. done.
Qed.

Lemma hex_of_inj n v w :
  (v < 16 ^ N.of_nat n)%N -> (w < 16 ^ N.of_nat n)%N ->
  Uuid.hex_of n v = Uuid.hex_of n w -> v = w.
Proof.
  revert v w. induction n as [|n IH]; intros v w Hv Hw H.
  - simpl in Hv, Hw. lia.
  - cbn [Uuid.hex_of] in H. apply snoc_inj in H as [Hhi Hlo].
    rewrite Nat2N.inj_succ, N.pow_succ_r' in Hv, Hw.
    apply hex_digit_inj in Hlo; [|apply N.mod_lt; lia..].
    apply IH in Hhi; [|apply N.Div0.div_lt_upper_bound; lia..].
    rewrite (N.div_mod v 16), (N.div_mod w 16) by lia. by rewrite Hhi, Hlo.
Qed.

Lemma top32_lt u : (top32 u < 16 ^ N.of_nat 8)%N.
Proof.
  unfold top32. apply N.Div0.div_lt_upper_bound.
  change (2 ^ 96 * 16 ^ N.of_nat 8)%N with (2 ^ 128)%N.
  apply N.mod_lt. discriminate.
Qed.

(** [uuid4().hex[:8]] is the eight digits of the 32 top bits. *)
Lemma take_hex u : Str.take 8 (Uuid.hex u) = Uuid.hex_of 8 (top32 u).
Proof.
  unfold Uuid.hex.
  change 32 with (8 + 24). rewrite hex_of_add.
  change (16 ^ N.of_nat 24)%N with (2 ^ 96)%N. fold (top32 u).
  rewrite <- (length_hex_of 8 (top32 u)) at 1. apply take_append.
Qed.

End HexFacts.

(** X16: the session identifier made by [init_chat_session] is 13
    characters long: "chat_" and eight lower-case hexadecimal digits,
    those of the 32 most significant bits of the UUID. *)
Theorem session_id_format (u : N) :
  new_session_id u = "chat_" ++ Uuid.hex_of 8 (top32 u)
  /\ String.length (new_session_id u) = 13
  /\ String.length (Uuid.hex_of 8 (top32 u)) = 8
  /\ all_hex (Uuid.hex_of 8 (top32 u)) = true.
Proof.
  unfold new_session_id. rewrite take_hex.
  split; [done|]. rewrite length_append, length_hex_of, all_hex_hex_of.
  done.
Qed.

(** X17: two UUIDs give the same session identifier exactly when their 32
    most significant bits agree; the other 96 bits play no part. *)
Theorem session_id_collision (u v : N) :
  new_session_id u = new_session_id v <-> top32 u = top32 v.
Proof.
  rewrite new_session_id_eq, !take_hex. split; [|by intros ->].
  apply hex_of_inj; apply top32_lt.
Qed.
